(** * MeasureBowl Play Console scripts: package probing and release publishing

    A shallow embedding of the five Python scripts of the repository

      - [add_service_account.py]
      - [flutter_app/android/publish_release.py]
      - [flutter_app/android/find_package.py]
      - [flutter_app/android/test_package.py]
      - [flutter_app/android/test_example_package.py]

    Every script loads a service-account key file, builds a client for the
    Android Publisher API, issues a few remote calls and prints diagnostics.
    The embedding keeps the three effects the scripts have: the remote service
    (a state machine answering calls), standard output (the list of printed
    strings, one entry per [print]) and Python exceptions (which leave the
    effects performed so far in place). *)

From Stdlib Require Import String Ascii List ZArith Bool Lia.
Import ListNotations.
Local Set Warnings "-register-all".
Local Open Scope string_scope.
Local Open Scope list_scope.

Infix "+++" := String.append (right associativity, at level 60).

(** The newline character of the Python literals written [\n]. *)
Definition NL : string := String (ascii_of_nat 10) EmptyString.

(* ================================================================== *)
(** ** Python values and exceptions *)
(* ================================================================== *)

Module Py.

(** The values a deserialised JSON response body can hold.  Numbers are
    integers here; the scripts never compute with them. *)
Inductive pyval : Type :=
| PNone
| PBool (b : bool)
| PInt (z : Z)
| PStr (s : string)
| PList (l : list pyval)
| PDict (d : list (string * pyval)).

(** The exceptions the scripts meet.  All of them are instances of Python's
    [Exception]; [HttpError] is the client library's class and carries
    [e.resp.status] and the text [str(e)]. *)
Inductive exn : Type :=
| HttpError (status : Z) (text : string)
| KeyError (key_repr : string)
| TypeError (text : string)
| Exception (text : string).

(** [str(e)], as interpolated by the f-strings. *)
Definition str_exn (e : exn) : string :=
  match e with
  | HttpError _ t => t
  | KeyError k => k
  | TypeError t => t
  | Exception t => t
  end.

(** [bool(v)]. *)
Definition truthy (v : pyval) : bool :=
  match v with
  | PNone => false
  | PBool b => b
  | PInt z => negb (z =? 0)%Z
  | PStr s => negb (String.eqb s "")
  | PList l => match l with [] => false | _ => true end
  | PDict d => match d with [] => false | _ => true end
  end.

(** [type(v).__name__], as it appears in the messages of [TypeError]. *)
Definition type_name (v : pyval) : string :=
  match v with
  | PNone => "NoneType"
  | PBool _ => "bool"
  | PInt _ => "int"
  | PStr _ => "str"
  | PList _ => "list"
  | PDict _ => "dict"
  end.

(** Dictionary lookup by key. *)
Fixpoint lookup (key : string) (d : list (string * pyval)) : option pyval :=
  match d with
  | [] => None
  | (k, v) :: d' => if String.eqb k key then Some v else lookup key d'
  end.

(** [needle in haystack] on two strings. *)
Fixpoint is_substring (needle haystack : string) : bool :=
  if String.prefix needle haystack then true
  else match haystack with
       | EmptyString => false
       | String _ rest => is_substring needle rest
       end.

(** [key in v] for a string [key]. *)
Definition contains (key : string) (v : pyval) : exn + bool :=
  match v with
  | PDict d => inr (match lookup key d with Some _ => true | None => false end)
  | PList l =>
      inr (existsb (fun x => match x with
                             | PStr s => String.eqb s key
                             | _ => false
                             end) l)
  | PStr s => inr (is_substring key s)
  | _ => inl (TypeError ("argument of type '" +++ type_name v
                           +++ "' is not iterable"))
  end.

(** [v[key]] for a string [key]. *)
Definition getitem (v : pyval) (key : string) : exn + pyval :=
  match v with
  | PDict d =>
      match lookup key d with
      | Some x => inr x
      | None => inl (KeyError ("'" +++ key +++ "'"))
      end
  | PList _ => inl (TypeError "list indices must be integers or slices, not str")
  | PStr _ => inl (TypeError "string indices must be integers, not 'str'")
  | _ => inl (TypeError ("'" +++ type_name v +++ "' object is not subscriptable"))
  end.

(** [v[0]].  The keys of a deserialised JSON object are strings, so the
    integer [0] is never one of them. *)
Definition getitem0 (v : pyval) : exn + pyval :=
  match v with
  | PList (x :: _) => inr x
  | PList [] => inl (Exception "list index out of range")
  | PStr (String c _) => inr (PStr (String c EmptyString))
  | PStr EmptyString => inl (Exception "string index out of range")
  | PDict _ => inl (KeyError "0")
  | _ => inl (TypeError ("'" +++ type_name v +++ "' object is not subscriptable"))
  end.

End Py.
Import Py.

(* ================================================================== *)
(** ** The host of a script run *)
(* ================================================================== *)

(** The requests the scripts send through the client ([.execute()] of the
    request built by [service.edits().list(packageName=...)] and so on). *)
Inductive call : Type :=
| EditsList (packageName : string)
| EditsInsert (packageName : string)
| EditsGet (packageName : string)
| EditsCommit (editId : pyval) (packageName : string)
| ReviewsList (packageName : string).

(** A request either returns the deserialised body or raises. *)
Abbreviation response := (exn + pyval)%type.

(** The package a request is about. *)
Definition package_of (c : call) : string :=
  match c with
  | EditsList p | EditsInsert p | EditsGet p | ReviewsList p => p
  | EditsCommit _ p => p
  end.

Definition is_commit (c : call) : bool :=
  match c with EditsCommit _ _ => true | _ => false end.

(** What [service_account.Credentials] exposes to the scripts. *)
Record Credentials : Type := { service_account_email : string }.

(** Everything outside the script: the file system, the key-file loader and
    the remote service, a state machine over [St].  [build] only assembles the
    client object and is not represented. *)
Record Host (St : Type) : Type := {
  path_exists : string -> bool;
  from_service_account_file : string -> exn + Credentials;
  execute : call -> St -> response * St
}.
Arguments path_exists {St}.
Arguments from_service_account_file {St}.
Arguments execute {St}.

(** The text renderings supplied by the Python runtime: [str(v)] and
    [json.dumps(v, indent=2)]. *)
Record Fmt : Type := {
  str_of : pyval -> string;
  json_dumps : pyval -> string
}.

(** The observable state of a run. *)
Record World (St : Type) : Type := {
  remote : St;
  stdout : list string;
  trace : list (call * response)
}.
Arguments remote {St}.
Arguments stdout {St}.
Arguments trace {St}.

(** A fresh run against a service in state [s]. *)
Definition boot {St} (s : St) : World St :=
  {| remote := s; stdout := []; trace := [] |}.

(* ================================================================== *)
(** ** The monad of script bodies *)
(* ================================================================== *)

(** A computation either returns a value or raises, and in both cases leaves
    a world behind. *)
Definition M (St A : Type) : Type := World St -> (exn + A) * World St.

Definition ret {St A} (a : A) : M St A := fun w => (inr a, w).

Definition raise {St A} (e : exn) : M St A := fun w => (inl e, w).

Definition bind {St A B} (m : M St A) (k : A -> M St B) : M St B :=
  fun w => match m w with
           | (inr a, w') => k a w'
           | (inl e, w') => (inl e, w')
           end.

(** [try: body except ... as e: handler e]. *)
Definition try_ {St A} (body : M St A) (handler : exn -> M St A) : M St A :=
  fun w => match body w with
           | (inr a, w') => (inr a, w')
           | (inl e, w') => handler e w'
           end.

(** A pure Python expression that may raise. *)
Definition eval {St A} (r : exn + A) : M St A := fun w => (r, w).

Definition print {St} (line : string) : M St unit :=
  fun w => (inr tt, {| remote := remote w;
                       stdout := stdout w ++ [line];
                       trace := trace w |}).

Notation "x <- m ;; k" := (bind m (fun x => k))
  (at level 61, m at next level, right associativity).
Notation "m ;; k" := (bind m (fun _ => k))
  (at level 61, right associativity).

Section Primitives.
Context {St : Type} (H : Host St).

(** Send a request; the exchange is appended to the trace. *)
Definition request (c : call) : M St pyval :=
  fun w => let (r, s') := execute H c (remote w) in
           (r, {| remote := s'; stdout := stdout w;
                  trace := trace w ++ [(c, r)] |}).

(** [service_account.Credentials.from_service_account_file(path, ...)]. *)
Definition load_credentials (path : string) : M St Credentials :=
  eval (from_service_account_file H path).

End Primitives.

(* ================================================================== *)
(** ** add_service_account.py *)
(* ================================================================== *)

Module AddServiceAccount.
Section Script.
Context {St : Type} (H : Host St).

Definition credentials_path : string :=
  "../../fastlane/play-console-credentials.json".

Definition service_account_email : string :=
  "play-console-uploader@dojo-pool.iam.gserviceaccount.com".

Definition package_name : string := "com.dojo.measurebowl".

(** The lines printed by the [elif e.resp.status == 403] branch, in order. *)
Definition remediation : list string :=
  [ "❌ Service account doesn't have access to this app.";
    NL +++ "To fix this:";
    "1. Go to https://play.google.com/console/";
    "2. Navigate to Setup > API access";
    "3. Find 'Service accounts' section";
    "4. Click 'Link service account'";
    "5. Enter: " +++ service_account_email;
    "6. Grant permissions:";
    "   - ✅ Release apps to testing tracks";
    "   - ✅ View app information and download bulk reports";
    "7. Click 'Invite user'" ].

(** Print the lines of a list, one [print] each. *)
Fixpoint print_all (lines : list string) : M St unit :=
  match lines with
  | [] => ret tt
  | l :: ls => print l ;; print_all ls
  end.

(** The inner [except HttpError as e] clause. *)
Definition on_http_error (e : exn) : M St bool :=
  match e with
  | HttpError status _ =>
      (if (status =? 404)%Z then
         print ("❌ App with package name '" +++ package_name
                  +++ "' not found.") ;;
         print "Please verify the package name matches what you created in Google Play Console."
       else if (status =? 403)%Z then
         print_all remediation
       else
         print ("❌ Error: " +++ str_exn e)) ;;
      ret false
  | _ => raise e
  end.

Definition add_service_account_to_play_console : M St bool :=
  if negb (path_exists H credentials_path) then
    print ("Error: Credentials file not found at " +++ credentials_path) ;;
    ret false
  else
    credentials <- load_credentials H credentials_path ;;
    try_
      (print ("Attempting to add service account: "
                +++ service_account_email) ;;
       print ("To package: " +++ package_name) ;;
       print (NL +++ "Testing service account access...") ;;
       try_
         (app_info <- request H (EditsGet package_name) ;;
          print "✅ Service account has access to the app!" ;;
          ret true)
         on_http_error)
      (fun e => print ("Unexpected error: " +++ str_exn e) ;; ret false).

End Script.
End AddServiceAccount.

(* ================================================================== *)
(** ** flutter_app/android/publish_release.py *)
(* ================================================================== *)

(** What the body of a [for] loop tells the loop: go on with the next
    element, or leave the function with a value. *)
Inductive ctl (R : Type) : Type :=
| Next
| Return (r : R).
Arguments Next {R}.
Arguments Return {R}.

(** [for x in xs: body x]; [None] when the loop runs to its end. *)
Fixpoint for_each {St A R} (xs : list A) (body : A -> M St (ctl R))
  : M St (option R) :=
  match xs with
  | [] => ret None
  | x :: xs' =>
      c <- body x ;;
      match c with
      | Next => for_each xs' body
      | Return r => ret (Some r)
      end
  end.

Definition measurebowl_credentials : string :=
  "../../fastlane/measurebowl-credentials.json".

Module PublishRelease.
Section Script.
Context {St : Type} (H : Host St) (F : Fmt).

Definition package_names : list string :=
  [ "com.example.measurebowl";
    "com.dojo.measurebowl";
    "com.measurebowl.app";
    "com.measurebowl";
    "com.lawnbowls.measurebowl" ].

(** [except HttpError as e] and [except Exception as e] of the loop body. *)
Definition on_error (package_name : string) (e : exn) : M St (ctl bool) :=
  match e with
  | HttpError status _ =>
      if (status =? 404)%Z then
        print ("Package " +++ package_name +++ " not found") ;; ret Next
      else
        print ("Error with " +++ package_name +++ ": " +++ str_exn e) ;;
        ret Next
  | _ =>
      print ("Error with " +++ package_name +++ ": " +++ str_exn e) ;;
      ret Next
  end.

(** ['edits' in edits_response and edits_response['edits']], as a test. *)
Definition has_edits (edits_response : pyval) : exn + bool :=
  match contains "edits" edits_response with
  | inl e => inl e
  | inr false => inr false
  | inr true =>
      match getitem edits_response "edits" with
      | inl e => inl e
      | inr edits => inr (truthy edits)
      end
  end.

(** One iteration of [for package_name in package_names]. *)
Definition attempt (package_name : string) : M St (ctl bool) :=
  print (NL +++ "Trying package: " +++ package_name) ;;
  try_
    (edits_response <- request H (EditsList package_name) ;;
     found <- eval (has_edits edits_response) ;;
     if (found : bool) then
       print ("Found existing edits for " +++ package_name) ;;
       edits <- eval (getitem edits_response "edits") ;;
       latest_edit <- eval (getitem0 edits) ;;
       edit_id <- eval (getitem latest_edit "id") ;;
       print ("Latest edit ID: " +++ str_of F edit_id) ;;
       commit_response <- request H (EditsCommit edit_id package_name) ;;
       print ("✅ SUCCESS! Published release for " +++ package_name) ;;
       print ("Commit response: " +++ str_of F commit_response) ;;
       ret (Return true)
     else
       print ("No existing edits found for " +++ package_name) ;;
       ret Next)
    (on_error package_name).

(** The loop and what follows it, over any list of candidates. *)
Definition publish_from (candidates : list string) : M St bool :=
  r <- for_each candidates attempt ;;
  match r with
  | Some b => ret b
  | None =>
      print (NL +++ "❌ No existing releases found to publish") ;;
      ret false
  end.

Definition publish_existing_release : M St bool :=
  credentials <- load_credentials H measurebowl_credentials ;;
  publish_from package_names.

End Script.
End PublishRelease.

(* ================================================================== *)
(** ** flutter_app/android/find_package.py *)
(* ================================================================== *)

Module FindPackage.
Section Script.
Context {St : Type} (H : Host St) (F : Fmt).

(** The [(name, function)] pairs; a function is the request it sends. *)
Definition methods : list (string * (string -> call)) :=
  [ ("edits().list()", EditsList);
    ("edits().insert()", EditsInsert);
    ("reviews().list()", ReviewsList) ].

Definition package_patterns : list string :=
  [ "com.example.measurebowl";
    "com.dojo.measurebowl";
    "com.measurebowl.app";
    "com.measurebowl";
    "com.lawnbowls.measurebowl";
    "com.julian.measurebowl";
    "com.gilbertroberts.measurebowl";
    "com.kickybreaks.measurebowl" ].

(** The line printed by the two [except] clauses of the method loop. *)
Definition failure_line (method_name : string) (e : exn) : string :=
  match e with
  | HttpError status _ =>
      if (status =? 404)%Z then
        "  ❌ " +++ method_name +++ ": Package not found"
      else
        "  ⚠️  " +++ method_name +++ ": " +++ str_exn e
  | _ => "  ⚠️  " +++ method_name +++ ": " +++ str_exn e
  end.

(** [for method_name, method_func in methods], for one package.  The
    local list [found_packages] is threaded through; [break] leaves the
    remaining methods untried. *)
Fixpoint try_methods (ms : list (string * (string -> call)))
    (package_name : string) (found_packages : list string)
  : M St (list string) :=
  match ms with
  | [] => ret found_packages
  | (method_name, method_func) :: ms' =>
      hit <- try_
               (result <- request H (method_func package_name) ;;
                print ("  ✅ " +++ method_name +++ " succeeded!") ;;
                print ("  Result: "
                         +++ substring 0 200 (json_dumps F result)
                         +++ "...") ;;
                ret (Some (found_packages ++ [package_name])))
               (fun e => print (failure_line method_name e) ;; ret None) ;;
      match hit with
      | Some found_packages' => ret found_packages'
      | None => try_methods ms' package_name found_packages
      end
  end.

(** [for package_name in package_patterns]. *)
Fixpoint try_packages (ps : list string) (found_packages : list string)
  : M St (list string) :=
  match ps with
  | [] => ret found_packages
  | package_name :: ps' =>
      print (NL +++ "Testing package: " +++ package_name) ;;
      found_packages' <- try_methods methods package_name found_packages ;;
      try_packages ps' found_packages'
  end.

(** The two loops and the final report, over any list of candidates. *)
Definition find_among (candidates : list string) : M St (option string) :=
  found_packages <- try_packages candidates [] ;;
  match found_packages with
  | first :: _ =>
      print (NL +++ "🎉 Found accessible packages: "
               +++ str_of F (PList (map PStr found_packages))) ;;
      ret (Some first)
  | [] =>
      print (NL +++ "❌ No accessible packages found") ;;
      ret None
  end.

Definition list_available_apps : M St (option string) :=
  credentials <- load_credentials H measurebowl_credentials ;;
  print ("Service account: " +++ service_account_email credentials) ;;
  print "Testing different approaches to find apps..." ;;
  find_among package_patterns.

End Script.
End FindPackage.

(* ================================================================== *)
(** ** flutter_app/android/test_package.py *)
(* ================================================================== *)

Module TestPackage.
Section Script.
Context {St : Type} (H : Host St) (F : Fmt).

Definition package_variations : list string :=
  [ "com.measurebowl.app";
    "com.measurebowl";
    "com.dojo.measurebowl";
    "com.julian.measurebowl";
    "com.gilbertroberts.measurebowl";
    "com.kickybreaks.measurebowl";
    "com.dojo.lawnbowls";
    "com.measurebowl.lawnbowls";
    "com.lawnbowls.measurebowl" ].

(** [except HttpError as e] and [except Exception as e] of the loop body. *)
Definition on_error (package_name : string) (e : exn)
  : M St (ctl string) :=
  match e with
  | HttpError status _ =>
      if (status =? 404)%Z then
        print ("❌ Package " +++ package_name +++ " not found") ;; ret Next
      else
        print ("⚠️  Error testing " +++ package_name +++ ": "
                 +++ str_exn e) ;;
        ret Next
  | _ =>
      print ("⚠️  Error testing " +++ package_name +++ ": "
               +++ str_exn e) ;;
      ret Next
  end.

(** One iteration of [for package_name in package_variations]. *)
Definition attempt (package_name : string) : M St (ctl string) :=
  try_
    (edit <- request H (EditsInsert package_name) ;;
     print ("✅ FOUND: Package " +++ package_name +++ " exists!") ;;
     edit_id <- eval (getitem edit "id") ;;
     print ("Edit ID: " +++ str_of F edit_id) ;;
     ret (Return package_name))
    (on_error package_name).

(** The loop and what follows it, over any list of candidates. *)
Definition test_among (candidates : list string) : M St (option string) :=
  r <- for_each candidates attempt ;;
  match r with
  | Some package_name => ret (Some package_name)
  | None =>
      print (NL +++ "❌ None of the common variations were found.") ;;
      print "You'll need to check the exact package name in Google Play Console." ;;
      ret None
  end.

Definition test_package_variations : M St (option string) :=
  credentials <- load_credentials H measurebowl_credentials ;;
  print "Testing common package name variations..." ;;
  test_among package_variations.

End Script.
End TestPackage.

(* ================================================================== *)
(** ** flutter_app/android/test_example_package.py *)
(* ================================================================== *)

Module TestExamplePackage.
Section Script.
Context {St : Type} (H : Host St) (F : Fmt).

Definition package_name : string := "com.example.measurebowl".

(** [except HttpError as e] and [except Exception as e]. *)
Definition on_error (e : exn) : M St bool :=
  match e with
  | HttpError status _ =>
      if (status =? 404)%Z then
        print ("ERROR: Package " +++ package_name +++ " not found") ;;
        print "This means either:" ;;
        print "1. The app wasn't created with this package name" ;;
        print "2. The service account doesn't have access to this app" ;;
        ret false
      else
        print ("ERROR: " +++ str_exn e) ;;
        ret false
  | _ =>
      print ("ERROR: " +++ str_exn e) ;;
      ret false
  end.

Definition test_example_package : M St bool :=
  credentials <- load_credentials H measurebowl_credentials ;;
  print ("Testing access to package: " +++ package_name) ;;
  try_
    (edit <- request H (EditsInsert package_name) ;;
     print ("SUCCESS: Package " +++ package_name +++ " exists!") ;;
     edit_id <- eval (getitem edit "id") ;;
     print ("Edit ID: " +++ str_of F edit_id) ;;
     ret true)
    on_error.

End Script.
End TestExamplePackage.

(* ================================================================== *)
(** ** Hosts for concrete runs *)
(* ================================================================== *)

Module Mock.

Definition credentials : Credentials :=
  {| service_account_email := "probe@measurebowl.iam.gserviceaccount.com" |}.

(** A stateless service that answers every request from a table; the key
    files exist and load. *)
Definition table (answer : call -> response) : Host unit :=
  {| path_exists := fun _ => true;
     from_service_account_file := fun _ => inr credentials;
     execute := fun c s => (answer c, s) |}.

(** A service that plays back a list of responses in order, whatever the
    request, and raises once the list is used up. *)
Definition playback : Host (list response) :=
  {| path_exists := fun _ => true;
     from_service_account_file := fun _ => inr credentials;
     execute := fun _ rs =>
       match rs with
       | r :: rs' => (r, rs')
       | [] => (inl (Exception "no more responses"), [])
       end |}.

(** A machine on which the key file is missing. *)
Definition no_key_file : Host unit :=
  {| path_exists := fun _ => false;
     from_service_account_file := fun _ => inl (Exception "No such file or directory");
     execute := fun _ s => (inl (Exception "unreachable"), s) |}.

(** A rendering that prints strings as they are and names the type of
    anything else. *)
Definition plain : Fmt :=
  {| str_of := fun v => match v with
                        | PStr s => s
                        | _ => "<" +++ type_name v +++ ">"
                        end;
     json_dumps := fun v => match v with
                            | PStr s => s
                            | _ => "<" +++ type_name v +++ ">"
                            end |}.

Definition not_found : response := inl (HttpError 404 "<HttpError 404>").
Definition forbidden : response := inl (HttpError 403 "<HttpError 403>").
Definition server_error : response := inl (HttpError 500 "<HttpError 500>").

(** An edit resource with the given id. *)
Definition app_edit (id : string) : pyval := PDict [("id", PStr id)].

(** The body of [edits().list()] holding the given edits. *)
Definition edits_body (edits : list pyval) : pyval :=
  PDict [("edits", PList edits)].

(** Two candidates with a pending edit: the first commit is refused, the
    second goes through. *)
Definition refused_then_published : list response :=
  [ inr (edits_body [app_edit "41"]);
    server_error;
    inr (edits_body [app_edit "42"; app_edit "7"]);
    inr (app_edit "42") ].

(** Only [com.dojo.measurebowl] exists: an insert for it returns an edit,
    every other request is answered with 404. *)
Definition only_dojo (c : call) : response :=
  match c with
  | EditsInsert p =>
      if String.eqb p "com.dojo.measurebowl" then inr (app_edit "e1")
      else not_found
  | _ => not_found
  end.

(** The first insert succeeds with a body that has no ['id']; every later
    request is answered with 404. *)
Definition edit_without_id : list response :=
  inr (PDict []) :: repeat not_found 8.

End Mock.

(* ================================================================== *)
(** ** Vocabulary for hosts and traces *)
(* ================================================================== *)

(** The response is the exception [HttpError] with status 404. *)
Definition is_not_found (r : response) : bool :=
  match r with
  | inl (HttpError status _) => (status =? 404)%Z
  | _ => false
  end.

(** The response is an exception of any kind. *)
Definition is_failure (r : response) : bool :=
  match r with
  | inl _ => true
  | inr _ => false
  end.

(** [answers H ok cs s] sends the requests [cs] in order to the service in
    state [s]; it is the state reached when every response satisfies [ok],
    and [None] otherwise. *)
Fixpoint answers {St} (H : Host St) (ok : response -> bool)
    (cs : list call) (s : St) : option St :=
  match cs with
  | [] => Some s
  | c :: cs' =>
      let (r, s') := execute H c s in
      if ok r then answers H ok cs' s' else None
  end.

(** The packages of the commit requests of a trace, in order. *)
Definition committed (T : list (call * response)) : list string :=
  map package_of (filter is_commit (map fst T)).

Module PublishTrace.

(** The exchanges of one iteration of the loop of
    [publish_existing_release], and how the iteration ends: either the
    listing alone, or the listing of a body whose ['edits'] is a non-empty
    list, followed by the commit of the ['id'] of its first element. *)
Inductive attempt_trace (p : string)
  : list (call * response) -> ctl bool -> Prop :=
| at_skip r : attempt_trace p [(EditsList p, r)] Next
| at_commit body first rest id rc :
    getitem body "edits" = inr (PList (first :: rest)) ->
    getitem first "id" = inr id ->
    attempt_trace p [(EditsList p, inr body); (EditsCommit id p, rc)]
      (match rc with inr _ => Return true | inl _ => Next end).

(** The exchanges of the whole loop over a list of candidates, and its
    result. *)
Inductive loop_trace
  : list string -> list (call * response) -> option bool -> Prop :=
| lt_done : loop_trace [] [] None
| lt_next p ps T T' r :
    attempt_trace p T Next -> loop_trace ps T' r ->
    loop_trace (p :: ps) (T ++ T') r
| lt_return p ps T b :
    attempt_trace p T (Return b) -> loop_trace (p :: ps) T (Some b).

(** The line an [except] clause of the loop prints for [e]. *)
Definition error_line (package_name : string) (e : exn) : string :=
  match e with
  | HttpError status _ =>
      if (status =? 404)%Z then "Package " +++ package_name +++ " not found"
      else "Error with " +++ package_name +++ ": " +++ str_exn e
  | _ => "Error with " +++ package_name +++ ": " +++ str_exn e
  end.

End PublishTrace.

Module FindTrace.
Import FindPackage.

(** The requests of the method loop for one package, in order. *)
Definition probes_of (ms : list (string * (string -> call)))
    (package_name : string) : list call :=
  map (fun m => snd m package_name) ms.

(** All the requests [list_available_apps] can send for a list of
    candidates, in order. *)
Definition probes (ps : list string) : list call :=
  flat_map (probes_of methods) ps.

(** One run of the method loop for package [p]: its exchanges, the lines
    it prints, and whether a method succeeded. *)
Inductive probe (F : Fmt) (p : string)
  : list (string * (string -> call)) ->
    list (call * response) -> list string -> bool -> Prop :=
| probe_none : probe F p [] [] [] false
| probe_hit name f ms v :
    probe F p ((name, f) :: ms) [(f p, inr v)]
      [ "  ✅ " +++ name +++ " succeeded!";
        "  Result: " +++ substring 0 200 (json_dumps F v) +++ "..." ]
      true
| probe_miss name f ms e T O hit :
    probe F p ms T O hit ->
    probe F p ((name, f) :: ms) ((f p, inl e) :: T)
      (failure_line name e :: O) hit.

(** One run of the package loop: candidates, [found_packages] before,
    exchanges, lines printed, [found_packages] after. *)
Inductive sweep (F : Fmt)
  : list string -> list string ->
    list (call * response) -> list string -> list string -> Prop :=
| sweep_nil found : sweep F [] found [] [] found
| sweep_cons p ps found T O hit T' O' found' :
    probe F p methods T O hit ->
    sweep F ps (if hit then found ++ [p] else found) T' O' found' ->
    sweep F (p :: ps) found (T ++ T')
      ((NL +++ "Testing package: " +++ p) :: O ++ O') found'.

(** The name under which the method loop reports a request. *)
Definition method_name (c : call) : string :=
  match c with
  | EditsList _ => "edits().list()"
  | EditsInsert _ => "edits().insert()"
  | ReviewsList _ => "reviews().list()"
  | _ => ""
  end.

(** The last line of a run, given the final [found_packages]. *)
Definition verdict (F : Fmt) (found : list string) : string :=
  match found with
  | _ :: _ =>
      NL +++ "🎉 Found accessible packages: "
        +++ str_of F (PList (map PStr found))
  | [] => NL +++ "❌ No accessible packages found"
  end.

(** The requests of a run that visits the candidates in order and sends,
    for each, a non-empty initial part of the method list. *)
Inductive visits : list string -> list call -> Prop :=
| visits_nil : visits [] []
| visits_cons p ps n cs :
    1 <= n <= length methods ->
    visits ps cs ->
    visits (p :: ps) (firstn n (probes_of methods p) ++ cs).

End FindTrace.

Module TestPackageTrace.

(** The line an [except] clause of [test_package_variations] prints. *)
Definition error_line (package_name : string) (e : exn) : string :=
  match e with
  | HttpError status _ =>
      if (status =? 404)%Z then "❌ Package " +++ package_name +++ " not found"
      else "⚠️  Error testing " +++ package_name +++ ": " +++ str_exn e
  | _ => "⚠️  Error testing " +++ package_name +++ ": " +++ str_exn e
  end.

End TestPackageTrace.

Module TestExampleTrace.

(** The first line an [except] clause of [test_example_package] prints. *)
Definition error_line (e : exn) : string :=
  match e with
  | HttpError status _ =>
      if (status =? 404)%Z then
        "ERROR: Package " +++ TestExamplePackage.package_name +++ " not found"
      else "ERROR: " +++ str_exn e
  | _ => "ERROR: " +++ str_exn e
  end.

End TestExampleTrace.

(** Every failed exchange of [T] has the line [line c e] among [O]. *)
Definition reported (line : call -> exn -> string)
    (T : list (call * response)) (O : list string) : Prop :=
  forall c e, In (c, inl e) T -> In (line c e) O.

(* ================================================================== *)
(** * Properties *)
(* ================================================================== *)

(** ** Lists and Python values *)

Lemma first_edit_inv edits first id :
  getitem0 edits = inr first -> getitem first "id" = inr id ->
  exists rest, edits = PList (first :: rest).
Proof.
  intros H0 Hid. destruct edits as [| | |s|l|d]; try discriminate.
  - destruct s; [discriminate|]. injection H0 as <-. discriminate.
  - destruct l as [|x l]; [discriminate|]. injection H0 as ->. now exists l.
Qed.

Lemma reported_nil line O : reported line [] O.
Proof. intros c e []. Qed.

Lemma reported_app line T T' O O' :
  reported line T O -> reported line T' O' ->
  reported line (T ++ T') (O ++ O').
Proof.
  intros HT HT' c e Hin. apply in_or_app.
  apply in_app_or in Hin. destruct Hin as [Hin|Hin]; [left|right]; auto.
Qed.

Lemma reported_weaken line T O O1 O2 :
  reported line T O -> reported line T (O1 ++ O ++ O2).
Proof.
  intros HT c e Hin. apply in_or_app. right. apply in_or_app. left. auto.
Qed.

(** ** publish_release.py: the shape of every run *)

Section PublishShape.
Context {St : Type} (H : Host St) (F : Fmt).
Import PublishRelease PublishTrace.

Lemma on_error_next p e (w : World St) :
  on_error p e w =
    (inr Next, {| remote := remote w;
                  stdout := stdout w ++ [error_line p e];
                  trace := trace w |}).
Proof.
  destruct e as [st t| | |]; cbn; try reflexivity.
  destruct (st =? 404)%Z; reflexivity.
Qed.

Ltac handle :=
  match goal with
  | |- context [on_error ?p ?e ?w] => rewrite (on_error_next p e w)
  end.

Ltac close_case :=
  do 4 eexists; cbn [trace stdout];
  split; [reflexivity|];
  split; [rewrite <- ?app_assoc; reflexivity|];
  split; [rewrite <- ?app_assoc; reflexivity|].

Ltac show_reported :=
  let Hin := fresh "Hin" in
  intros ? ? Hin; cbn in Hin;
  repeat (destruct Hin as [Hin|Hin];
          [first [discriminate Hin
                 |injection Hin as <- <-; cbn [package_of];
                  rewrite ?in_app_iff; cbn [In]; intuition]|]);
  contradiction.

(** One iteration always completes; it tells the loop how to go on. *)
Lemma attempt_spec p (w : World St) :
  exists c w' T O,
    attempt H F p w = (inr c, w') /\
    trace w' = trace w ++ T /\
    stdout w' = stdout w ++ O /\
    attempt_trace p T c /\
    reported (fun c e => error_line (package_of c) e) T O.
Proof.
  unfold attempt, bind, try_, request, print, eval, ret.
  cbn [remote stdout trace].
  destruct (execute H (EditsList p) (remote w)) as [[e|body] s1] eqn:E1.
  { handle. close_case. split; [constructor|show_reported]. }
  destruct (has_edits body) as [e|[|]] eqn:Eh; cbn [remote stdout trace].
  { handle. close_case. split; [constructor|show_reported]. }
  2:{ close_case. split; [constructor|show_reported]. }
  destruct (getitem body "edits") as [e|edits] eqn:Ee.
  { handle. close_case. split; [constructor|show_reported]. }
  destruct (getitem0 edits) as [e|first] eqn:E0.
  { handle. close_case. split; [constructor|show_reported]. }
  destruct (getitem first "id") as [e|id] eqn:Ei.
  { handle. close_case. split; [constructor|show_reported]. }
  destruct (first_edit_inv _ _ _ E0 Ei) as [rest ->].
  destruct (execute H (EditsCommit id p) s1) as [[e|v] s2] eqn:E2;
    cbn [remote stdout trace].
  - handle. close_case. split; [|show_reported].
    apply (at_commit p body first rest id (inl e)); assumption.
  - close_case. split; [|show_reported].
    apply (at_commit p body first rest id (inr v)); assumption.
Qed.

Lemma for_each_attempt_spec ps (w : World St) :
  exists r w' T O,
    for_each ps (attempt H F) w = (inr r, w') /\
    trace w' = trace w ++ T /\
    stdout w' = stdout w ++ O /\
    loop_trace ps T r /\
    reported (fun c e => error_line (package_of c) e) T O.
Proof.
  revert w. induction ps as [|p ps IH]; intros w.
  - exists None, w, [], []. rewrite !app_nil_r.
    repeat split; [constructor|apply reported_nil].
  - cbn [for_each]. unfold bind at 1.
    destruct (attempt_spec p w) as (c & w1 & T & O & -> & Ht & Ho & Hat & Hrep).
    destruct c as [|b].
    + destruct (IH w1) as (r & w2 & T' & O' & -> & Ht' & Ho' & Hlt & Hrep').
      exists r, w2, (T ++ T'), (O ++ O').
      rewrite Ht', Ht, Ho', Ho, !app_assoc.
      repeat split; [now apply lt_next|now apply reported_app].
    + exists (Some b), w1, T, O.
      repeat split; try assumption. now apply lt_return.
Qed.

(** The loop and the final report, over any list of candidates: the call
    returns a boolean, and its exchanges have the shape [loop_trace]. *)
Lemma publish_from_spec cands (w : World St) :
  exists r w' T O,
    publish_from H F cands w =
      (inr (match r with Some b => b | None => false end), w') /\
    trace w' = trace w ++ T /\
    stdout w' = stdout w ++ O /\
    loop_trace cands T r /\
    reported (fun c e => error_line (package_of c) e) T O.
Proof.
  unfold publish_from, bind.
  destruct (for_each_attempt_spec cands w)
    as (r & w1 & T & O & -> & Ht & Ho & Hlt & Hrep).
  destruct r as [b|].
  - exists (Some b), w1, T, O. repeat split; assumption.
  - eexists None, _, T, (O ++ [_]). cbn [print stdout trace].
    split; [reflexivity|]. rewrite Ho, app_assoc.
    repeat split; try assumption.
    rewrite <- (app_nil_l (O ++ _)). now apply reported_weaken.
Qed.

Lemma attempt_trace_next_inv p T :
  attempt_trace p T Next ->
  (exists r, T = [(EditsList p, r)]) \/
  (exists body first rest id e,
      T = [(EditsList p, inr body); (EditsCommit id p, inl e)] /\
      getitem body "edits" = inr (PList (first :: rest)) /\
      getitem first "id" = inr id).
Proof.
  intros Hat. inversion Hat as [r|body first rest id rc He Hi HT Hc].
  - left. now exists r.
  - right. destruct rc as [e|v]; [|discriminate].
    now exists body, first, rest, id, e.
Qed.

Lemma attempt_trace_return_inv p T b :
  attempt_trace p T (Return b) ->
  b = true /\
  exists body first rest id v,
      T = [(EditsList p, inr body); (EditsCommit id p, inr v)] /\
      getitem body "edits" = inr (PList (first :: rest)) /\
      getitem first "id" = inr id.
Proof.
  intros Hat. inversion Hat as [|body first rest id rc He Hi HT Hc].
  destruct rc as [e|v]; [discriminate|]. injection Hc as <-.
  split; [reflexivity|]. now exists body, first, rest, id, v.
Qed.

(** Every commit of a loop trace comes right after the listing of the same
    package, whose body holds a non-empty list of edits, and carries the
    ['id'] of the first of them. *)
Lemma loop_trace_commit ps T r :
  loop_trace ps T r ->
  forall pre id pkg resp post,
    T = pre ++ (EditsCommit id pkg, resp) :: post ->
    exists pre' body first rest,
      pre = pre' ++ [(EditsList pkg, inr body)] /\
      getitem body "edits" = inr (PList (first :: rest)) /\
      getitem first "id" = inr id.
Proof.
  induction 1 as [|p ps T T' r Hat Hlt IH|p ps T b Hat];
    intros pre id pkg resp post HT.
  - destruct pre; discriminate.
  - apply attempt_trace_next_inv in Hat.
    destruct Hat as [[r0 ->]|(body & first & rest & id0 & e & -> & He & Hi)].
    + destruct pre as [|a pre]; [discriminate|].
      injection HT as <- HT.
      destruct (IH _ _ _ _ _ HT) as (pre' & body & first & rest & -> & He & Hi).
      now exists ((EditsList p, r0) :: pre'), body, first, rest.
    + destruct pre as [|a [|a' pre]].
      * discriminate.
      * injection HT as <- ? ? ? ?. subst.
        now exists [], body, first, rest.
      * injection HT as <- <- HT.
        destruct (IH _ _ _ _ _ HT)
          as (pre' & body' & first' & rest' & -> & He' & Hi').
        now exists ((EditsList p, inr body) :: (EditsCommit id0 p, inl e) :: pre'),
          body', first', rest'.
  - apply attempt_trace_return_inv in Hat.
    destruct Hat as (-> & body & first & rest & id0 & v & -> & He & Hi).
    destruct pre as [|a [|a' pre]].
    + discriminate.
    + injection HT as <- ? ? ? ?. subst. now exists [], body, first, rest.
    + injection HT as <- <- HT. destruct pre; discriminate.
Qed.

(** A run of the script: either the key file fails to load and nothing
    else happens, or the loop runs over the hard-coded candidates. *)
Lemma publish_existing_release_spec s :
  (exists e, from_service_account_file H measurebowl_credentials = inl e /\
             publish_existing_release H F (boot s) = (inl e, boot s)) \/
  (exists r w',
      publish_existing_release H F (boot s) =
        (inr (match r with Some b => b | None => false end), w') /\
      loop_trace package_names (trace w') r /\
      reported (fun c e => error_line (package_of c) e)
        (trace w') (stdout w')).
Proof.
  unfold publish_existing_release, bind, load_credentials, eval.
  destruct (from_service_account_file H measurebowl_credentials) as [e|c].
  - left. now exists e.
  - right.
    destruct (publish_from_spec package_names (boot s))
      as (r & w1 & T & O & -> & Ht & Ho & Hlt & Hrep).
    exists r, w1. rewrite Ht, Ho. now repeat split.
Qed.

(** C1.  In a run of [publish_existing_release], every commit request is
    immediately preceded by the [edits().list()] request for the same
    package; that request returned a body whose ['edits'] entry is a
    non-empty list, and the edit id committed is the ['id'] entry of the
    first element of that list. *)
Theorem commit_follows_nonempty_edits_list s r w' pre id pkg resp post :
  publish_existing_release H F (boot s) = (r, w') ->
  trace w' = pre ++ (EditsCommit id pkg, resp) :: post ->
  exists pre' body first rest,
    pre = pre' ++ [(EditsList pkg, inr body)] /\
    getitem body "edits" = inr (PList (first :: rest)) /\
    getitem first "id" = inr id.
Proof.
  intros Hrun HT.
  destruct (publish_existing_release_spec s)
    as [(e & _ & Hrun')|(r0 & w1 & Hrun' & Hlt & _)];
    rewrite Hrun' in Hrun; injection Hrun as <- <-.
  - destruct pre; discriminate.
  - eapply loop_trace_commit; eassumption.
Qed.

Lemma attempt_trace_packages p T c :
  attempt_trace p T c -> Forall (fun cr => package_of (fst cr) = p) T.
Proof. intros []; repeat constructor. Qed.

Lemma loop_trace_packages ps T r :
  loop_trace ps T r -> Forall (fun cr => In (package_of (fst cr)) ps) T.
Proof.
  induction 1 as [|p ps T T' r Hat Hlt IH|p ps T b Hat].
  - constructor.
  - apply Forall_app. split.
    + eapply Forall_impl; [|eapply attempt_trace_packages; eassumption].
      intros cr <-. now left.
    + eapply Forall_impl; [|exact IH]. intros cr Hin. now right.
  - eapply Forall_impl; [|eapply attempt_trace_packages; eassumption].
    intros cr <-. now left.
Qed.

(** A loop over a non-empty list starts by listing the edits of the
    first candidate. *)
Lemma loop_trace_head q ps T r :
  loop_trace (q :: ps) T r -> exists r' T', T = (EditsList q, r') :: T'.
Proof.
  intros Hlt.
  inversion Hlt as [|p ps' T0 T' r0 Hat Hlt' |p ps' T0 b Hat]; subst.
  - destruct Hat; eexists; eexists; reflexivity.
  - destruct Hat; eexists; eexists; reflexivity.
Qed.

(** A commit that succeeds is the last exchange, and the loop returns
    [True]. *)
Lemma loop_trace_success_last ps T r :
  loop_trace ps T r ->
  forall pre id pkg v post,
    T = pre ++ (EditsCommit id pkg, inr v) :: post ->
    post = [] /\ r = Some true.
Proof.
  induction 1 as [|p ps T T' r Hat Hlt IH|p ps T b Hat];
    intros pre id pkg v post HT.
  - destruct pre; discriminate.
  - apply attempt_trace_next_inv in Hat.
    destruct Hat as [[r0 ->]|(body & first & rest & id0 & e & -> & _)].
    + destruct pre as [|a pre]; [discriminate|].
      injection HT as <- HT. eapply IH; eassumption.
    + destruct pre as [|a [|a' pre]]; try discriminate.
      injection HT as <- <- HT. eapply IH; eassumption.
  - apply attempt_trace_return_inv in Hat.
    destruct Hat as (-> & body & first & rest & id0 & v0 & -> & _).
    destruct pre as [|a [|a' pre]].
    + discriminate.
    + injection HT as <- ? ? ? <-. now split.
    + injection HT as <- <- HT. destruct pre; discriminate.
Qed.

(** A commit that fails is followed by the listing of the next
    candidate. *)
Lemma loop_trace_failure_goes_on ps T r :
  loop_trace ps T r -> NoDup ps ->
  forall pre id pkg e post l1 q l2,
    T = pre ++ (EditsCommit id pkg, inl e) :: post ->
    ps = l1 ++ pkg :: q :: l2 ->
    exists r' post', post = (EditsList q, r') :: post'.
Proof.
  induction 1 as [|p ps T T' r Hat Hlt IH|p ps T b Hat];
    intros Hnd pre id pkg e post l1 q l2 HT Hps.
  - destruct pre; discriminate.
  - inversion Hnd as [|p' ps' Hnotin Hnd']; subst p' ps'.
    assert (Hlater : forall pre',
               T' = pre' ++ (EditsCommit id pkg, inl e) :: post ->
               exists r' post', post = (EditsList q, r') :: post').
    { intros pre' HT'.
      assert (Hin : In pkg ps).
      { pose proof (loop_trace_packages _ _ _ Hlt) as Hall.
        rewrite Forall_forall in Hall.
        apply (Hall (EditsCommit id pkg, inl e)).
        rewrite HT'. apply in_or_app. right. now left. }
      destruct l1 as [|x l1].
      - injection Hps as -> _. contradiction.
      - injection Hps as _ Hps. eapply IH; eassumption. }
    apply attempt_trace_next_inv in Hat.
    destruct Hat as [[r0 ->]|(body & first & rest & id0 & e0 & -> & _)].
    + destruct pre as [|a pre]; [discriminate|].
      injection HT as <- HT. eapply Hlater; eassumption.
    + destruct pre as [|a [|a' pre]].
      * discriminate.
      * injection HT as <- ? ? ? ?. subst.
        destruct l1 as [|x l1].
        -- injection Hps as ->. eapply loop_trace_head; eassumption.
        -- injection Hps as -> Hps. exfalso. apply Hnotin.
           rewrite Hps. apply in_or_app. right. now left.
      * injection HT as <- <- HT. eapply Hlater; eassumption.
  - apply attempt_trace_return_inv in Hat.
    destruct Hat as (-> & body & first & rest & id0 & v0 & -> & _).
    destruct pre as [|a [|a' pre]]; try discriminate.
    injection HT as <- <- HT. destruct pre; discriminate.
Qed.

Lemma committed_app T T' : committed (T ++ T') = committed T ++ committed T'.
Proof. unfold committed. now rewrite map_app, filter_app, map_app. Qed.

Lemma committed_in ps T r pkg :
  loop_trace ps T r -> In pkg (committed T) -> In pkg ps.
Proof.
  intros Hlt Hin. unfold committed in Hin.
  apply in_map_iff in Hin. destruct Hin as (c & <- & Hc).
  apply filter_In in Hc. destruct Hc as [Hc _].
  apply in_map_iff in Hc. destruct Hc as ([c' resp] & <- & Hcr).
  pose proof (loop_trace_packages _ _ _ Hlt) as Hall.
  rewrite Forall_forall in Hall. exact (Hall _ Hcr).
Qed.

(** No package is committed twice. *)
Lemma loop_trace_one_commit_each ps T r :
  loop_trace ps T r -> NoDup ps -> NoDup (committed T).
Proof.
  induction 1 as [|p ps T T' r Hat Hlt IH|p ps T b Hat]; intros Hnd.
  - constructor.
  - inversion Hnd as [|p' ps' Hnotin Hnd']; subst p' ps'.
    rewrite committed_app.
    apply attempt_trace_next_inv in Hat.
    destruct Hat as [[r0 ->]|(body & first & rest & id0 & e0 & -> & _)]; cbn.
    + now apply IH.
    + constructor; [|now apply IH].
      intros Hin. apply Hnotin. eapply committed_in; eassumption.
  - apply attempt_trace_return_inv in Hat.
    destruct Hat as (-> & body & first & rest & id0 & v0 & -> & _).
    cbn. constructor; [intros []|constructor].
Qed.

Lemma package_names_nodup : NoDup package_names.
Proof.
  unfold package_names.
  repeat (constructor; [cbn; intuition discriminate|]). constructor.
Qed.

(** C6, as the code has it.  A commit that succeeds ends the run: it is
    the last exchange and the script returns [True].  A commit that fails
    does not: when the package has a successor in the hard-coded list, the
    next exchange is the listing of that successor.  No package is sent a
    second commit. *)
Theorem commit_ends_the_run_only_when_it_succeeds s r w' :
  publish_existing_release H F (boot s) = (r, w') ->
  (forall pre id pkg v post,
      trace w' = pre ++ (EditsCommit id pkg, inr v) :: post ->
      post = [] /\ r = inr true) /\
  (forall pre id pkg e post l1 q l2,
      trace w' = pre ++ (EditsCommit id pkg, inl e) :: post ->
      package_names = l1 ++ pkg :: q :: l2 ->
      exists r' post', post = (EditsList q, r') :: post') /\
  NoDup (committed (trace w')).
Proof.
  intros Hrun.
  destruct (publish_existing_release_spec s)
    as [(e & _ & Hrun')|(r0 & w1 & Hrun' & Hlt & _)];
    rewrite Hrun' in Hrun; injection Hrun as <- <-.
  - split; [|split].
    + intros pre id pkg v post HT. destruct pre; discriminate.
    + intros pre id pkg e0 post l1 q l2 HT. destruct pre; discriminate.
    + constructor.
  - split; [|split].
    + intros pre id pkg v post HT.
      destruct (loop_trace_success_last _ _ _ Hlt _ _ _ _ _ HT) as [-> ->].
      now split.
    + intros pre id pkg e post l1 q l2 HT Hps.
      eapply loop_trace_failure_goes_on;
        [eassumption|apply package_names_nodup|eassumption|eassumption].
    + eapply loop_trace_one_commit_each;
        [eassumption|apply package_names_nodup].
Qed.

End PublishShape.

(** ** find_package.py: the shape of every run *)

Section FindShape.
Context {St : Type} (H : Host St) (F : Fmt).
Import FindPackage FindTrace.

(** The method loop always completes, whatever the service answers. *)
Lemma try_methods_spec ms p found (w : World St) :
  exists hit w' T O,
    try_methods H F ms p found w =
      (inr (if hit : bool then found ++ [p] else found), w') /\
    trace w' = trace w ++ T /\
    stdout w' = stdout w ++ O /\
    probe F p ms T O hit.
Proof.
  revert w. induction ms as [|[name f] ms IH]; intros w.
  - exists false, w, [], []. rewrite !app_nil_r.
    repeat split. constructor.
  - cbn [try_methods]. unfold bind, try_, request, print, ret.
    cbn [remote stdout trace].
    destruct (execute H (f p) (remote w)) as [[e|v] s1] eqn:E1.
    + cbn [remote stdout trace].
      match goal with
      | |- context [try_methods H F ms p found ?w1] =>
          destruct (IH w1) as (hit & w2 & T & O & -> & Ht & Ho & Hp)
      end.
      exists hit, w2, ((f p, inl e) :: T), (failure_line name e :: O).
      cbn [trace stdout] in Ht, Ho. rewrite Ht, Ho, <- !app_assoc.
      repeat split. now constructor.
    + cbn [remote stdout trace].
      eexists true, _, [(f p, inr v)], [_; _]. cbn [trace stdout].
      rewrite <- !app_assoc. repeat split. constructor.
Qed.

(** So does the package loop. *)
Lemma try_packages_spec ps found (w : World St) :
  exists found' w' T O,
    try_packages H F ps found w = (inr found', w') /\
    trace w' = trace w ++ T /\
    stdout w' = stdout w ++ O /\
    sweep F ps found T O found'.
Proof.
  revert found w. induction ps as [|p ps IH]; intros found w.
  - exists found, w, [], []. rewrite !app_nil_r.
    repeat split. constructor.
  - cbn [try_packages]. unfold bind at 1, print at 1.
    unfold bind at 1.
    match goal with
    | |- context [try_methods H F methods p found ?w1] =>
        destruct (try_methods_spec methods p found w1)
          as (hit & w2 & T & O & -> & Ht & Ho & Hp)
    end.
    destruct (IH (if hit then found ++ [p] else found) w2)
      as (found' & w3 & T' & O' & -> & Ht' & Ho' & Hs).
    cbn [trace stdout] in Ht, Ho.
    exists found', w3, (T ++ T'),
      ((NL +++ "Testing package: " +++ p) :: O ++ O').
    rewrite Ht', Ht, Ho', Ho, <- !app_assoc.
    repeat split. econstructor; eassumption.
Qed.

(** A run of the script: either the key file fails to load and nothing
    else happens, or both loops run over the hard-coded candidates, the
    verdict is printed and the head of [found_packages] is returned. *)
Lemma list_available_apps_spec s :
  (exists e, from_service_account_file H measurebowl_credentials = inl e /\
             list_available_apps H F (boot s) = (inl e, boot s)) \/
  (exists c found w' O,
      from_service_account_file H measurebowl_credentials = inr c /\
      list_available_apps H F (boot s) = (inr (hd_error found), w') /\
      sweep F package_patterns [] (trace w') O found /\
      stdout w' =
        [ "Service account: " +++ service_account_email c;
          "Testing different approaches to find apps..." ]
        ++ O ++ [verdict F found]).
Proof.
  unfold list_available_apps, find_among, bind, load_credentials, eval,
    print, ret.
  cbn [remote stdout trace].
  destruct (from_service_account_file H measurebowl_credentials) as [e|c].
  - left. now exists e.
  - right.
    match goal with
    | |- context [try_packages H F package_patterns [] ?w1] =>
        destruct (try_packages_spec package_patterns [] w1)
          as (found & w2 & T & O & -> & Ht & Ho & Hs)
    end.
    cbn [boot trace stdout app] in Ht, Ho.
    exists c, found.
    destruct found as [|first rest];
      eexists _, O; cbn [trace stdout hd_error verdict];
      rewrite Ht, Ho; repeat split; assumption.
Qed.

(** *** What the shape says about the requests *)

Lemma probe_calls p ms T O hit :
  probe F p ms T O hit ->
  exists n, map fst T = firstn n (probes_of ms p) /\
            n <= length ms /\ (ms <> [] -> 1 <= n).
Proof.
  induction 1 as [|name f ms v|name f ms e T O hit Hp IH].
  - exists 0. repeat split; auto. congruence.
  - exists 1. cbn. repeat split; auto. lia.
  - destruct IH as (n & Hcalls & Hn & _). exists (S n).
    cbn [map fst probes_of snd firstn length]. fold (probes_of ms p).
    rewrite Hcalls. repeat split; auto; lia.
Qed.

Lemma sweep_visits ps found T O found' :
  sweep F ps found T O found' -> visits ps (map fst T).
Proof.
  induction 1 as [|p ps found T O hit T' O' found' Hp Hs IH].
  - constructor.
  - rewrite map_app.
    destruct (probe_calls _ _ _ _ _ Hp) as (n & -> & Hn & Hpos).
    constructor; [|assumption].
    split; [apply Hpos; discriminate|assumption].
Qed.

Lemma in_firstn {A} n (l : list A) x : In x (firstn n l) -> In x l.
Proof.
  intros Hin. rewrite <- (firstn_skipn n l). apply in_or_app. now left.
Qed.

Lemma nodup_firstn {A} n (l : list A) : NoDup l -> NoDup (firstn n l).
Proof.
  intros Hnd. rewrite <- (firstn_skipn n l) in Hnd.
  eapply NoDup_app_remove_r; eassumption.
Qed.

Lemma probes_of_methods_package p c :
  In c (probes_of methods p) -> package_of c = p.
Proof. cbn. intuition (subst; reflexivity). Qed.

Lemma probes_of_methods_nodup p : NoDup (probes_of methods p).
Proof.
  cbn. repeat (constructor; [cbn; intuition discriminate|]). constructor.
Qed.

Lemma visits_packages ps cs c :
  visits ps cs -> In c cs -> In (package_of c) ps.
Proof.
  induction 1 as [|p ps n cs Hn Hv IH]; intros Hin; [contradiction|].
  apply in_app_or in Hin. destruct Hin as [Hin|Hin].
  - left. symmetry. eapply probes_of_methods_package, in_firstn, Hin.
  - right. auto.
Qed.

Lemma visits_nodup ps cs : visits ps cs -> NoDup ps -> NoDup cs.
Proof.
  induction 1 as [|p ps n cs Hn Hv IH]; intros Hnd; [constructor|].
  inversion Hnd as [|p' ps' Hnotin Hnd']; subst p' ps'.
  apply NoDup_app.
  - apply nodup_firstn, probes_of_methods_nodup.
  - auto.
  - intros c Hc Hc'. apply Hnotin.
    rewrite <- (probes_of_methods_package p c) by (eapply in_firstn, Hc).
    eapply visits_packages; eassumption.
Qed.

Lemma package_patterns_nodup : NoDup package_patterns.
Proof.
  unfold package_patterns.
  repeat (constructor; [cbn; intuition discriminate|]). constructor.
Qed.

(** C8.  In a run of [list_available_apps] whose key file loads, the
    requests sent are, for each candidate of the hard-coded list taken in
    its literal order, a non-empty initial part of the method list; no
    request (a method applied to a candidate) is sent twice. *)
Theorem candidates_visited_once_in_order s c :
  from_service_account_file H measurebowl_credentials = inr c ->
  visits package_patterns
    (map fst (trace (snd (list_available_apps H F (boot s))))) /\
  NoDup (map fst (trace (snd (list_available_apps H F (boot s))))).
Proof.
  intros Hload.
  destruct (list_available_apps_spec s)
    as [(e & Hfail & _)|(c' & found & w' & O & _ & -> & Hs & _)];
    [congruence|].
  cbn [snd]. apply sweep_visits in Hs.
  split; [assumption|].
  eapply visits_nodup; [eassumption|apply package_patterns_nodup].
Qed.

(** *** What the shape says about the result *)

Lemma sweep_found ps found T O found' :
  sweep F ps found T O found' ->
  exists l, found' = found ++ l /\ incl l ps.
Proof.
  induction 1 as [found|p ps found T O hit T' O' found' Hp Hs IH].
  - exists []. rewrite app_nil_r. split; [reflexivity|]. intros x [].
  - destruct IH as (l & -> & Hl). destruct hit.
    + exists (p :: l). rewrite <- app_assoc. split; [reflexivity|].
      intros x [<-|Hx]; [now left|right; auto].
    + exists l. split; [reflexivity|]. intros x Hx. right. auto.
Qed.

Lemma list_available_apps_returns_candidate w0 p :
  fst (list_available_apps H F w0) = inr (Some p) ->
  In p package_patterns.
Proof.
  unfold list_available_apps, find_among, bind, load_credentials, eval,
    print, ret.
  cbn [remote stdout trace].
  destruct (from_service_account_file H measurebowl_credentials) as [e|c];
    [discriminate|].
  match goal with
  | |- context [try_packages H F package_patterns [] ?w1] =>
      destruct (try_packages_spec package_patterns [] w1)
        as (found & w2 & T & O & -> & _ & _ & Hs)
  end.
  apply sweep_found in Hs. destruct Hs as (l & -> & Hl).
  destruct l as [|first rest]; cbn; [discriminate|].
  intros [= <-]. apply Hl. now left.
Qed.

(** *** The responses determine the run *)

Lemma probe_functional p ms T1 O1 hit1 :
  probe F p ms T1 O1 hit1 ->
  forall T2 O2 hit2 (U1 U2 : list response),
    probe F p ms T2 O2 hit2 ->
    map snd T1 ++ U1 = map snd T2 ++ U2 ->
    T1 = T2 /\ O1 = O2 /\ hit1 = hit2 /\ U1 = U2.
Proof.
  induction 1 as [|name f ms v|name f ms e T O hit Hp IH];
    intros T2 O2 hit2 U1 U2 Hp2 Hresp.
  - inversion Hp2; subst. now repeat split.
  - inversion Hp2 as [|name' f' ms' v'|name' f' ms' e' T' O' hit' Hp'];
      subst; cbn in Hresp.
    + injection Hresp as <- <-. now repeat split.
    + discriminate.
  - inversion Hp2 as [|name' f' ms' v'|name' f' ms' e' T' O' hit' Hp'];
      subst; cbn in Hresp.
    + discriminate.
    + injection Hresp as <- Hresp.
      destruct (IH _ _ _ _ _ Hp' Hresp) as (-> & -> & -> & ->).
      now repeat split.
Qed.

Lemma sweep_functional ps found T1 O1 found1 :
  sweep F ps found T1 O1 found1 ->
  forall T2 O2 found2 (U1 U2 : list response),
    sweep F ps found T2 O2 found2 ->
    map snd T1 ++ U1 = map snd T2 ++ U2 ->
    T1 = T2 /\ O1 = O2 /\ found1 = found2 /\ U1 = U2.
Proof.
  induction 1 as [found|p ps found T O hit T' O' found' Hp Hs IH];
    intros T2 O2 found2 U1 U2 Hs2 Hresp.
  - inversion Hs2; subst. now repeat split.
  - inversion Hs2 as [|p' ps' found0 Ta Oa hita Tb Ob foundb Hpa Hsb];
      subst.
    rewrite !map_app, <- !app_assoc in Hresp.
    destruct (probe_functional _ _ _ _ _ Hp _ _ _ _ _ Hpa Hresp)
      as (-> & -> & -> & Hrest).
    destruct (IH _ _ _ _ _ Hsb Hrest) as (-> & -> & -> & ->).
    now repeat split.
Qed.

End FindShape.

(** ** find_package.py: determinism *)

Section FindDeterminism.
Context {St1 St2 : Type} (H1 : Host St1) (H2 : Host St2) (F : Fmt).
Import FindPackage FindTrace.

(** C9.  Two runs of [list_available_apps], against any two services and
    from any of their states, with the same outcome of the key-file load:
    when the two runs receive the same sequence of responses, they print
    the same lines and return the same value (or raise the same
    exception). *)
Theorem same_responses_same_run s1 s2 :
  from_service_account_file H1 measurebowl_credentials =
    from_service_account_file H2 measurebowl_credentials ->
  map snd (trace (snd (list_available_apps H1 F (boot s1)))) =
    map snd (trace (snd (list_available_apps H2 F (boot s2)))) ->
  fst (list_available_apps H1 F (boot s1)) =
    fst (list_available_apps H2 F (boot s2)) /\
  stdout (snd (list_available_apps H1 F (boot s1))) =
    stdout (snd (list_available_apps H2 F (boot s2))).
Proof.
  intros Hload.
  destruct (list_available_apps_spec H1 F s1)
    as [(e1 & L1 & ->)|(c1 & found1 & w1 & O1 & L1 & -> & Hs1 & Ho1)];
    destruct (list_available_apps_spec H2 F s2)
      as [(e2 & L2 & ->)|(c2 & found2 & w2 & O2 & L2 & -> & Hs2 & Ho2)];
    rewrite L1, L2 in Hload; try discriminate; cbn [fst snd].
  - injection Hload as ->. intros _. now split.
  - injection Hload as ->. intros Hresp.
    destruct (sweep_functional F _ _ _ _ _ Hs1 _ _ _ [] [] Hs2)
      as (_ & -> & -> & _).
    + now rewrite !app_nil_r.
    + rewrite Ho1, Ho2. now split.
Qed.

End FindDeterminism.

(** ** Services that answer as a scenario says *)

Section Answers.
Context {St : Type} (H : Host St).

Lemma answers_app ok cs1 cs2 (s : St) :
  answers H ok (cs1 ++ cs2) s =
    match answers H ok cs1 s with
    | Some s1 => answers H ok cs2 s1
    | None => None
    end.
Proof.
  revert s. induction cs1 as [|c cs1 IH]; intros s; cbn; [reflexivity|].
  destruct (execute H c s) as [r s1]. destruct (ok r); auto.
Qed.

Lemma answers_weaken (ok ok' : response -> bool) cs (s s' : St) :
  (forall r, ok r = true -> ok' r = true) ->
  answers H ok cs s = Some s' -> answers H ok' cs s = Some s'.
Proof.
  intros Hok. revert s. induction cs as [|c cs IH]; intros s; cbn; auto.
  destruct (execute H c s) as [r s1]. destruct (ok r) eqn:E; [|discriminate].
  rewrite (Hok r E). auto.
Qed.

Lemma not_found_is_failure r : is_not_found r = true -> is_failure r = true.
Proof. destruct r as [e|v]; [reflexivity|discriminate]. Qed.

Lemma is_not_found_inv r :
  is_not_found r = true -> exists t, r = inl (HttpError 404 t).
Proof.
  destruct r as [[st t| | |]|v]; try discriminate. cbn.
  intros E. apply Z.eqb_eq in E. subst. now exists t.
Qed.

End Answers.

(** ** test_package.py *)

Section TestPackageRuns.
Context {St : Type} (H : Host St) (F : Fmt).
Import TestPackage.

Lemma test_on_error_next p e (w : World St) :
  on_error p e w =
    (inr Next, {| remote := remote w;
                  stdout := stdout w ++ [TestPackageTrace.error_line p e];
                  trace := trace w |}).
Proof.
  destruct e as [st t| | |]; cbn; try reflexivity.
  destruct (st =? 404)%Z; reflexivity.
Qed.

(** One iteration always completes: it goes on, or returns its own
    candidate. *)
Lemma test_attempt_spec p (w : World St) :
  exists c w',
    attempt H F p w = (inr c, w') /\ (c = Next \/ c = Return p).
Proof.
  unfold attempt, bind, try_, request, print, eval, ret.
  cbn [remote stdout trace].
  destruct (execute H (EditsInsert p) (remote w)) as [[e|edit] s1].
  - rewrite test_on_error_next. eexists _, _. split; [reflexivity|now left].
  - destruct (getitem edit "id") as [e|id]; cbn [remote stdout trace].
    + rewrite test_on_error_next. eexists _, _.
      split; [reflexivity|now left].
    + eexists _, _. split; [reflexivity|now right].
Qed.

Lemma test_loop_spec ps (w : World St) :
  exists r w',
    for_each ps (attempt H F) w = (inr r, w') /\
    forall p, r = Some p -> In p ps.
Proof.
  revert w. induction ps as [|q ps IH]; intros w.
  - exists None, w. split; [reflexivity|discriminate].
  - cbn [for_each]. unfold bind at 1.
    destruct (test_attempt_spec q w) as (c & w1 & -> & [->| ->]).
    + destruct (IH w1) as (r & w2 & -> & Hr).
      exists r, w2. split; [reflexivity|]. intros p Hp. right. auto.
    + exists (Some q), w1. split; [reflexivity|].
      intros p [= <-]. now left.
Qed.

Lemma test_package_variations_returns_candidate w0 p :
  fst (test_package_variations H F w0) = inr (Some p) ->
  In p package_variations.
Proof.
  unfold test_package_variations, test_among, bind, load_credentials, eval,
    print, ret.
  cbn [remote stdout trace].
  destruct (from_service_account_file H measurebowl_credentials) as [e|c];
    [discriminate|].
  match goal with
  | |- context [for_each package_variations (attempt H F) ?w1] =>
      destruct (test_loop_spec package_variations w1) as (r & w2 & -> & Hr)
  end.
  destruct r as [q|]; cbn; [|discriminate].
  intros [= <-]. now apply Hr.
Qed.

(** A candidate answered with 404 is reported and passed over. *)
Lemma test_attempt_not_found p (w : World St) r s1 :
  execute H (EditsInsert p) (remote w) = (r, s1) ->
  is_not_found r = true ->
  attempt H F p w =
    (inr Next,
     {| remote := s1;
        stdout := stdout w ++ ["❌ Package " +++ p +++ " not found"];
        trace := trace w ++ [(EditsInsert p, r)] |}).
Proof.
  intros E Hnf. apply is_not_found_inv in Hnf. destruct Hnf as [t ->].
  unfold attempt, bind, try_, request. rewrite E. reflexivity.
Qed.

(** A candidate answered with an edit that has an ['id'] is returned. *)
Lemma test_attempt_found p (w : World St) edit id s1 :
  execute H (EditsInsert p) (remote w) = (inr edit, s1) ->
  getitem edit "id" = inr id ->
  attempt H F p w =
    (inr (Return p),
     {| remote := s1;
        stdout := stdout w ++
          [ "✅ FOUND: Package " +++ p +++ " exists!";
            "Edit ID: " +++ str_of F id ];
        trace := trace w ++ [(EditsInsert p, inr edit)] |}).
Proof.
  intros E Hid.
  unfold attempt, bind, try_, request, print, eval, ret. rewrite E.
  cbn [remote stdout trace]. rewrite Hid. cbn [remote stdout trace].
  now rewrite <- app_assoc.
Qed.

(** The loop walks through a prefix of candidates that are all answered
    with 404. *)
Lemma test_loop_not_found before rest (w : World St) s1 :
  answers H is_not_found (map EditsInsert before) (remote w) = Some s1 ->
  exists w1,
    for_each (before ++ rest) (attempt H F) w =
      for_each rest (attempt H F) w1 /\
    remote w1 = s1 /\
    map fst (trace w1) = map fst (trace w) ++ map EditsInsert before /\
    stdout w1 =
      stdout w ++ map (fun q => "❌ Package " +++ q +++ " not found") before.
Proof.
  revert w. induction before as [|q before IH]; intros w; cbn [map answers app].
  - intros [= <-]. exists w. now rewrite !app_nil_r.
  - destruct (execute H (EditsInsert q) (remote w)) as [r s0] eqn:E.
    destruct (is_not_found r) eqn:Hnf; [|discriminate].
    intros Hrest. cbn [for_each]. unfold bind at 1.
    rewrite (test_attempt_not_found q w r s0 E Hnf).
    match goal with
    | |- context [for_each (before ++ rest) (attempt H F) ?w0] =>
        destruct (IH w0 Hrest) as (w1 & -> & Hr & Ht & Ho)
    end.
    exists w1. cbn [trace stdout] in Ht, Ho.
    rewrite Ht, Ho, map_app, <- !app_assoc. now repeat split.
Qed.

End TestPackageRuns.

(** ** find_package.py against a scenario *)

Section FindRuns.
Context {St : Type} (H : Host St) (F : Fmt).
Import FindPackage FindTrace.

(** When every method fails, the method loop leaves [found_packages]
    as it was. *)
Lemma try_methods_fail ms p found (w : World St) s' :
  answers H is_failure (probes_of ms p) (remote w) = Some s' ->
  exists w',
    try_methods H F ms p found w = (inr found, w') /\ remote w' = s'.
Proof.
  revert w. induction ms as [|[name f] ms IH]; intros w;
    cbn [probes_of map answers snd try_methods].
  - intros [= <-]. now exists w.
  - fold (probes_of ms p).
    unfold bind, try_, request, print, ret. cbn [remote stdout trace].
    destruct (execute H (f p) (remote w)) as [[e|v] s1]; cbn [is_failure];
      [|discriminate].
    intros Hrest. cbn [remote stdout trace].
    match goal with
    | |- context [try_methods H F ms p found ?w0] =>
        destruct (IH w0 Hrest) as (w1 & -> & Hr)
    end.
    now exists w1.
Qed.

(** When a method succeeds after the earlier ones failed, the package is
    appended and the remaining methods are not tried. *)
Lemma try_methods_hit mb name f ma p found (w : World St) s2 v s3 :
  answers H is_failure (probes_of mb p) (remote w) = Some s2 ->
  execute H (f p) s2 = (inr v, s3) ->
  exists w',
    try_methods H F (mb ++ (name, f) :: ma) p found w =
      (inr (found ++ [p]), w') /\
    remote w' = s3.
Proof.
  revert w. induction mb as [|[name0 f0] mb IH]; intros w;
    cbn [probes_of map answers snd try_methods app].
  - intros [= <-] E.
    unfold bind, try_, request, print, ret. cbn [remote stdout trace].
    rewrite E. cbn [remote stdout trace]. eexists. split; reflexivity.
  - fold (probes_of mb p).
    unfold bind, try_, request, print, ret. cbn [remote stdout trace].
    destruct (execute H (f0 p) (remote w)) as [[e|v0] s1]; cbn [is_failure];
      [|discriminate].
    intros Hrest E. cbn [remote stdout trace].
    match goal with
    | |- context [try_methods H F _ p found ?w0] =>
        destruct (IH w0 Hrest E) as (w1 & -> & Hr)
    end.
    now exists w1.
Qed.

Lemma probes_cons p ps : probes (p :: ps) = probes_of methods p ++ probes ps.
Proof. reflexivity. Qed.

(** When every method fails for every candidate of [before], the package
    loop reaches the rest of the list with [found_packages] as it was. *)
Lemma try_packages_fail before rest found (w : World St) s' :
  answers H is_failure (probes before) (remote w) = Some s' ->
  exists w',
    try_packages H F (before ++ rest) found w =
      try_packages H F rest found w' /\
    remote w' = s'.
Proof.
  revert w. induction before as [|p before IH]; intros w.
  - cbn. intros [= <-]. now exists w.
  - rewrite probes_cons, answers_app.
    destruct (answers H is_failure (probes_of methods p) (remote w))
      as [s1|] eqn:E1; [|discriminate].
    intros Hrest. cbn [try_packages app]. unfold bind at 1, print at 1.
    unfold bind at 1.
    match goal with
    | |- context [try_methods H F methods p found ?w0] =>
        destruct (try_methods_fail methods p found w0 s1 E1)
          as (w1 & -> & Hr)
    end.
    rewrite <- Hr in Hrest. exact (IH w1 Hrest).
Qed.

End FindRuns.

(** ** publish_release.py against a scenario *)

Section PublishRuns.
Context {St : Type} (H : Host St) (F : Fmt).
Import PublishRelease.

Lemma publish_attempt_not_found p (w : World St) r s1 :
  execute H (EditsList p) (remote w) = (r, s1) ->
  is_not_found r = true ->
  exists w',
    attempt H F p w = (inr Next, w') /\ remote w' = s1.
Proof.
  intros E Hnf. apply is_not_found_inv in Hnf. destruct Hnf as [t ->].
  unfold attempt, bind, try_, request, print. cbn [remote stdout trace].
  rewrite E. cbn. eexists. split; reflexivity.
Qed.

Lemma publish_loop_not_found ps (w : World St) s' :
  answers H is_not_found (map EditsList ps) (remote w) = Some s' ->
  exists w',
    for_each ps (attempt H F) w = (inr None, w') /\ remote w' = s'.
Proof.
  revert w. induction ps as [|p ps IH]; intros w; cbn [map answers].
  - intros [= <-]. now exists w.
  - destruct (execute H (EditsList p) (remote w)) as [r s1] eqn:E.
    destruct (is_not_found r) eqn:Hnf; [|discriminate].
    intros Hrest. cbn [for_each]. unfold bind at 1.
    destruct (publish_attempt_not_found p w r s1 E Hnf) as (w1 & -> & Hr).
    rewrite <- Hr in Hrest. exact (IH w1 Hrest).
Qed.

End PublishRuns.

(** ** test_example_package.py *)

Section TestExampleRuns.
Context {St : Type} (H : Host St) (F : Fmt).
Import TestExamplePackage.

(** Once the key file is loaded the call returns a boolean, and a failed
    request has its line printed. *)
Lemma test_example_package_spec s c :
  from_service_account_file H measurebowl_credentials = inr c ->
  exists b w',
    test_example_package H F (boot s) = (inr b, w') /\
    reported (fun _ e => TestExampleTrace.error_line e)
      (trace w') (stdout w').
Proof.
  intros Hload.
  unfold test_example_package, bind, try_, load_credentials, eval, request,
    print, ret.
  cbn [remote stdout trace boot]. rewrite Hload. cbn [app].
  destruct (execute H (EditsInsert package_name) s) as [[e|edit] s1].
  - destruct e as [st t| | |]; cbn [on_error];
      [destruct (st =? 404)%Z eqn:E404|..];
      unfold bind, print, ret; cbn [remote stdout trace];
      eexists _, _; (split; [reflexivity|]);
      intros c' e' [[= <- <-]|[]]; cbn [TestExampleTrace.error_line];
      rewrite ?E404; cbn; auto.
  - destruct (getitem edit "id") as [e|id]; cbn [remote stdout trace].
    + destruct e as [st t| | |]; cbn [on_error];
        [destruct (st =? 404)%Z|..];
        unfold bind, print, ret; cbn [remote stdout trace];
        eexists _, _; (split; [reflexivity|]);
        intros c' e' [[=]|[]].
    + eexists _, _. split; [reflexivity|]. intros c' e' [[=]|[]].
Qed.

End TestExampleRuns.

(** ** add_service_account.py *)

Section AddServiceAccountRuns.
Context {St : Type} (H : Host St).
Import AddServiceAccount.

(** A 403 from the probe: the three opening lines, then the remediation
    text, one request in all, and [False]. *)
Lemma add_service_account_forbidden s c t s1 :
  path_exists H credentials_path = true ->
  from_service_account_file H credentials_path = inr c ->
  execute H (EditsGet package_name) s = (inl (HttpError 403 t), s1) ->
  add_service_account_to_play_console H (boot s) =
    (inr false,
     {| remote := s1;
        stdout :=
          [ "Attempting to add service account: " +++ service_account_email;
            "To package: " +++ package_name;
            NL +++ "Testing service account access..." ] ++ remediation;
        trace := [(EditsGet package_name, inl (HttpError 403 t))] |}).
Proof.
  intros Hexists Hload E.
  unfold add_service_account_to_play_console. rewrite Hexists.
  unfold bind, try_, load_credentials, eval, request, print, ret.
  cbn [negb remote stdout trace boot]. rewrite Hload, E. reflexivity.
Qed.

End AddServiceAccountRuns.

(** ** Scenarios across the scripts *)

Section Scenarios.
Context {St : Type} (H : Host St) (F : Fmt).
Import FindTrace.

(** C2, as the code has it.  [test_package_variations]' loop over a list
    [before ++ p :: after]: when the candidates of [before] are answered
    with 404 and [p] is answered with an edit that has an ['id'], the loop
    stops at [p] (nothing is sent for [after]), prints the two lines of the
    find and returns [p].  [list_available_apps]' loops over such a list:
    when every method for the candidates of [before] is answered with 404,
    some method for [p] succeeds after the earlier ones failed, and every
    method for the candidates of [after] fails, [found_packages] ends as
    [[p]] and [p] is returned. *)
Theorem first_success_is_reported :
  (forall before p after s s1 edit id s2,
      answers H is_not_found (map EditsInsert before) s = Some s1 ->
      execute H (EditsInsert p) s1 = (inr edit, s2) ->
      getitem edit "id" = inr id ->
      exists w',
        TestPackage.test_among H F (before ++ p :: after) (boot s) =
          (inr (Some p), w') /\
        remote w' = s2 /\
        map fst (trace w') = map EditsInsert (before ++ [p]) /\
        stdout w' =
          map (fun q => "❌ Package " +++ q +++ " not found") before ++
          [ "✅ FOUND: Package " +++ p +++ " exists!";
            "Edit ID: " +++ str_of F id ]) /\
  (forall before p after mb name f ma s s1 s2 v s3 s4,
      FindPackage.methods = mb ++ (name, f) :: ma ->
      answers H is_not_found (probes before) s = Some s1 ->
      answers H is_failure (probes_of mb p) s1 = Some s2 ->
      execute H (f p) s2 = (inr v, s3) ->
      answers H is_failure (probes after) s3 = Some s4 ->
      exists w1 w',
        FindPackage.try_packages H F (before ++ p :: after) [] (boot s) =
          (inr [p], w1) /\
        FindPackage.find_among H F (before ++ p :: after) (boot s) =
          (inr (Some p), w') /\
        remote w' = s4).
Proof.
  split.
  - intros before p after s s1 edit id s2 Hbefore Hp Hid.
    unfold TestPackage.test_among, bind.
    destruct (test_loop_not_found H F before (p :: after) (boot s) s1 Hbefore)
      as (w1 & -> & Hr & Ht & Ho).
    cbn [for_each]. unfold bind. rewrite <- Hr in Hp.
    rewrite (test_attempt_found H F p w1 edit id s2 Hp Hid).
    eexists. split; [reflexivity|]. cbn [remote trace stdout].
    rewrite map_app, Ht, Ho, map_app.
    cbn [map fst app boot trace stdout]. now repeat split.
  - intros before p after mb name f ma s s1 s2 v s3 s4
      Hms Hbefore Hmiss Hhit Hafter.
    assert (Hloops : exists w1,
               FindPackage.try_packages H F (before ++ p :: after) []
                 (boot s) = (inr [p], w1) /\ remote w1 = s4).
    { apply (answers_weaken H _ is_failure) in Hbefore;
        [|apply not_found_is_failure].
      destruct (try_packages_fail H F before (p :: after) [] (boot s) s1
                  Hbefore) as (wa & -> & Hra).
      cbn [FindPackage.try_packages]. unfold bind at 1, print at 1.
      unfold bind at 1. rewrite Hms.
      match goal with
      | |- context [FindPackage.try_methods H F _ p [] ?w0] =>
          destruct (try_methods_hit H F mb name f ma p [] w0 s2 v s3)
            as (wb & -> & Hrb)
      end.
      { cbn [remote]. now rewrite Hra. }
      { assumption. }
      rewrite <- Hrb in Hafter.
      destruct (try_packages_fail H F after [] ([] ++ [p]) wb s4)
        as (wc & Hrun & Hrc).
      { assumption. }
      rewrite app_nil_r in Hrun. rewrite Hrun. cbn.
      now exists wc. }
    destruct Hloops as (w1 & Hrun & Hr1).
    exists w1. unfold FindPackage.find_among, bind. rewrite Hrun.
    eexists. split; [reflexivity|]. split; [reflexivity|]. exact Hr1.
Qed.

(** C4.  With the key file loaded: when every request of the loop is
    answered with 404, [list_available_apps] and [test_package_variations]
    return [None] and [publish_existing_release] returns [False]; the last
    lines printed say that nothing was found. *)
Theorem nothing_found_is_reported s c :
  from_service_account_file H measurebowl_credentials = inr c ->
  (forall s',
      answers H is_not_found (probes FindPackage.package_patterns) s
        = Some s' ->
      exists w' out,
        FindPackage.list_available_apps H F (boot s) = (inr None, w') /\
        remote w' = s' /\
        stdout w' = out ++ [NL +++ "❌ No accessible packages found"]) /\
  (forall s',
      answers H is_not_found
        (map EditsInsert TestPackage.package_variations) s = Some s' ->
      exists w' out,
        TestPackage.test_package_variations H F (boot s) = (inr None, w') /\
        remote w' = s' /\
        stdout w' =
          out ++
          [ NL +++ "❌ None of the common variations were found.";
            "You'll need to check the exact package name in Google Play Console." ]) /\
  (forall s',
      answers H is_not_found
        (map EditsList PublishRelease.package_names) s = Some s' ->
      exists w' out,
        PublishRelease.publish_existing_release H F (boot s)
          = (inr false, w') /\
        remote w' = s' /\
        stdout w' = out ++ [NL +++ "❌ No existing releases found to publish"]).
Proof.
  intros Hload. split; [|split]; intros s' Hall.
  - apply (answers_weaken H _ is_failure) in Hall;
      [|apply not_found_is_failure].
    unfold FindPackage.list_available_apps, FindPackage.find_among, bind,
      load_credentials, eval, print, ret.
    cbn [remote stdout trace boot]. rewrite Hload.
    match goal with
    | |- context [FindPackage.try_packages H F _ [] ?w0] =>
        destruct (try_packages_fail H F FindPackage.package_patterns [] []
                    w0 s' Hall) as (w1 & Hrun & Hr)
    end.
    rewrite app_nil_r in Hrun. rewrite Hrun. cbn [FindPackage.try_packages ret].
    eexists _, _. split; [reflexivity|]. now split.
  - unfold TestPackage.test_package_variations, TestPackage.test_among, bind,
      load_credentials, eval, print, ret.
    cbn [remote stdout trace boot]. rewrite Hload.
    match goal with
    | |- context [for_each _ (TestPackage.attempt H F) ?w0] =>
        destruct (test_loop_not_found H F TestPackage.package_variations []
                    w0 s' Hall) as (w1 & Hrun & Hr & _ & _)
    end.
    rewrite app_nil_r in Hrun. rewrite Hrun. cbn [for_each ret].
    eexists _, (stdout w1). split; [reflexivity|]. cbn [remote stdout].
    rewrite <- app_assoc. now split.
  - unfold PublishRelease.publish_existing_release,
      PublishRelease.publish_from, bind, load_credentials, eval, print, ret.
    cbn [remote stdout trace boot]. rewrite Hload.
    match goal with
    | |- context [for_each _ (PublishRelease.attempt H F) ?w0] =>
        destruct (publish_loop_not_found H F PublishRelease.package_names
                    w0 s' Hall) as (w1 & -> & Hr)
    end.
    eexists _, _. split; [reflexivity|]. now split.
Qed.

(** C10.  A name returned by [list_available_apps] or by
    [test_package_variations] is one of the script's hard-coded
    candidates. *)
Theorem returned_name_is_a_candidate (w : World St) p :
  (fst (FindPackage.list_available_apps H F w) = inr (Some p) ->
   In p FindPackage.package_patterns) /\
  (fst (TestPackage.test_package_variations H F w) = inr (Some p) ->
   In p TestPackage.package_variations).
Proof.
  split.
  - apply list_available_apps_returns_candidate.
  - apply test_package_variations_returns_candidate.
Qed.

(** C3, as the code has it.  In [add_service_account_to_play_console] a 403
    from the probe prints the fixed remediation text (steps 1 to 7), sends
    nothing more and returns [False].  In the method loop of
    [list_available_apps] a 403 prints one warning line with the text of the
    error, and the loop goes on with the remaining methods for the same
    package. *)
Theorem forbidden_is_explained_or_passed_over :
  (forall s c t s1,
      path_exists H AddServiceAccount.credentials_path = true ->
      from_service_account_file H AddServiceAccount.credentials_path
        = inr c ->
      execute H (EditsGet AddServiceAccount.package_name) s
        = (inl (HttpError 403 t), s1) ->
      AddServiceAccount.add_service_account_to_play_console H (boot s) =
        (inr false,
         {| remote := s1;
            stdout :=
              [ "Attempting to add service account: "
                  +++ AddServiceAccount.service_account_email;
                "To package: " +++ AddServiceAccount.package_name;
                NL +++ "Testing service account access..." ]
              ++ AddServiceAccount.remediation;
            trace := [(EditsGet AddServiceAccount.package_name,
                       inl (HttpError 403 t))] |})) /\
  (forall name f ms p found (w : World St) t s1,
      execute H (f p) (remote w) = (inl (HttpError 403 t), s1) ->
      FindPackage.try_methods H F ((name, f) :: ms) p found w =
        FindPackage.try_methods H F ms p found
          {| remote := s1;
             stdout := stdout w ++ ["  ⚠️  " +++ name +++ ": " +++ t];
             trace := trace w ++ [(f p, inl (HttpError 403 t))] |}).
Proof.
  split.
  - intros s c t s1. apply add_service_account_forbidden.
  - intros name f ms p found w t s1 E.
    cbn [FindPackage.try_methods].
    unfold bind, try_, request, print, ret. cbn [remote stdout trace].
    rewrite E. reflexivity.
Qed.

End Scenarios.

(** ** Concrete runs *)

Lemma commit_follows_nonempty_edits_list_witness :
  exists r w' pre post,
    PublishRelease.publish_existing_release Mock.playback Mock.plain
      (boot Mock.refused_then_published) = (r, w') /\
    trace w' =
      pre ++ (EditsCommit (PStr "42") "com.dojo.measurebowl",
              inr (Mock.app_edit "42")) :: post /\
    exists pre' body first rest,
      pre = pre' ++ [(EditsList "com.dojo.measurebowl", inr body)] /\
      getitem body "edits" = inr (PList (first :: rest)) /\
      getitem first "id" = inr (PStr "42").
Proof.
  eexists _, _,
    [ (EditsList "com.example.measurebowl",
       inr (Mock.edits_body [Mock.app_edit "41"]));
      (EditsCommit (PStr "41") "com.example.measurebowl", Mock.server_error);
      (EditsList "com.dojo.measurebowl",
       inr (Mock.edits_body [Mock.app_edit "42"; Mock.app_edit "7"])) ], [].
  split; [vm_compute; reflexivity|]. split; [vm_compute; reflexivity|].
  eapply (commit_follows_nonempty_edits_list Mock.playback Mock.plain
            Mock.refused_then_published); vm_compute; reflexivity.
Defined.

(** C6, as the claim has it, fails: after the refused commit for
    [com.example.measurebowl] the run lists the edits of
    [com.dojo.measurebowl] and sends a second commit, which succeeds. *)
Lemma refused_commit_is_not_final :
  let run := PublishRelease.publish_existing_release Mock.playback Mock.plain
               (boot Mock.refused_then_published) in
  fst run = inr true /\
  trace (snd run) =
    [ (EditsList "com.example.measurebowl",
       inr (Mock.edits_body [Mock.app_edit "41"]));
      (EditsCommit (PStr "41") "com.example.measurebowl", Mock.server_error);
      (EditsList "com.dojo.measurebowl",
       inr (Mock.edits_body [Mock.app_edit "42"; Mock.app_edit "7"]));
      (EditsCommit (PStr "42") "com.dojo.measurebowl",
       inr (Mock.app_edit "42")) ].
Proof. split; vm_compute; reflexivity. Qed.

Lemma commit_ends_the_run_only_when_it_succeeds_witness :
  exists r w',
    PublishRelease.publish_existing_release Mock.playback Mock.plain
      (boot Mock.refused_then_published) = (r, w') /\
    (forall pre id pkg v post,
        trace w' = pre ++ (EditsCommit id pkg, inr v) :: post ->
        post = [] /\ r = inr true) /\
    (forall pre id pkg e post l1 q l2,
        trace w' = pre ++ (EditsCommit id pkg, inl e) :: post ->
        PublishRelease.package_names = l1 ++ pkg :: q :: l2 ->
        exists r' post', post = (EditsList q, r') :: post') /\
    NoDup (committed (trace w')).
Proof.
  eexists _, _. split; [vm_compute; reflexivity|].
  apply (commit_ends_the_run_only_when_it_succeeds Mock.playback Mock.plain
           Mock.refused_then_published).
  vm_compute; reflexivity.
Defined.

(** *** add_service_account.py without its key file *)

(** C5.  When [os.path.exists] is false for the hard-coded path,
    [add_service_account_to_play_console] prints the error line and returns
    [False] at once; the state of the service and the trace of requests are
    as they were, so no remote call was issued. *)
Theorem missing_credentials_stops_at_once
    {St : Type} (H : Host St) (w : World St) :
  path_exists H AddServiceAccount.credentials_path = false ->
  AddServiceAccount.add_service_account_to_play_console H w =
    (inr false,
     {| remote := remote w;
        stdout := stdout w ++
          ["Error: Credentials file not found at ../../fastlane/play-console-credentials.json"];
        trace := trace w |}).
Proof.
  intros Hmissing.
  unfold AddServiceAccount.add_service_account_to_play_console.
  rewrite Hmissing. reflexivity.
Qed.

Lemma missing_credentials_stops_at_once_witness :
  path_exists Mock.no_key_file AddServiceAccount.credentials_path = false /\
  AddServiceAccount.add_service_account_to_play_console Mock.no_key_file
    (boot tt) =
    (inr false,
     {| remote := tt;
        stdout :=
          ["Error: Credentials file not found at ../../fastlane/play-console-credentials.json"];
        trace := [] |}).
Proof.
  split; [reflexivity|].
  exact (missing_credentials_stops_at_once Mock.no_key_file (boot tt) eq_refl).
Defined.

(** *** First success *)

Lemma first_success_is_reported_witness :
  (exists w',
      TestPackage.test_among (Mock.table Mock.only_dojo) Mock.plain
        TestPackage.package_variations (boot tt) =
        (inr (Some "com.dojo.measurebowl"), w') /\
      map fst (trace w') =
        [ EditsInsert "com.measurebowl.app";
          EditsInsert "com.measurebowl";
          EditsInsert "com.dojo.measurebowl" ]) /\
  (exists w1 w',
      FindPackage.try_packages (Mock.table Mock.only_dojo) Mock.plain
        FindPackage.package_patterns [] (boot tt) =
        (inr ["com.dojo.measurebowl"], w1) /\
      FindPackage.find_among (Mock.table Mock.only_dojo) Mock.plain
        FindPackage.package_patterns (boot tt) =
        (inr (Some "com.dojo.measurebowl"), w')).
Proof.
  split.
  - destruct (proj1 (first_success_is_reported (Mock.table Mock.only_dojo)
                       Mock.plain)
                ["com.measurebowl.app"; "com.measurebowl"]
                "com.dojo.measurebowl"
                [ "com.julian.measurebowl"; "com.gilbertroberts.measurebowl";
                  "com.kickybreaks.measurebowl"; "com.dojo.lawnbowls";
                  "com.measurebowl.lawnbowls"; "com.lawnbowls.measurebowl" ]
                tt tt (Mock.app_edit "e1") (PStr "e1") tt
                eq_refl eq_refl eq_refl)
      as (w' & Hrun & _ & Ht & _).
    exists w'. split; [exact Hrun|exact Ht].
  - destruct (proj2 (first_success_is_reported (Mock.table Mock.only_dojo)
                       Mock.plain)
                ["com.example.measurebowl"]
                "com.dojo.measurebowl"
                [ "com.measurebowl.app"; "com.measurebowl";
                  "com.lawnbowls.measurebowl"; "com.julian.measurebowl";
                  "com.gilbertroberts.measurebowl";
                  "com.kickybreaks.measurebowl" ]
                [("edits().list()", EditsList)]
                "edits().insert()" EditsInsert
                [("reviews().list()", ReviewsList)]
                tt tt tt (Mock.app_edit "e1") tt tt
                eq_refl eq_refl eq_refl eq_refl eq_refl)
      as (w1 & w' & Hloops & Hrun & _).
    exists w1, w'. split; [exact Hloops|exact Hrun].
Defined.

(** C2, as the claim has it, fails for [test_package_variations]: the insert
    for the first candidate succeeds, with a body that has no ['id']; the
    script does not stop there, probes all nine candidates and returns
    [None]. *)
Lemma success_without_id_is_passed_over :
  let run := TestPackage.test_package_variations Mock.playback Mock.plain
               (boot Mock.edit_without_id) in
  fst run = inr None /\
  hd_error (trace (snd run)) =
    Some (EditsInsert "com.measurebowl.app", inr (PDict [])) /\
  map fst (trace (snd run)) =
    map EditsInsert TestPackage.package_variations.
Proof. repeat split; vm_compute; reflexivity. Qed.

(** *** Forbidden *)

(** C3, as the claim has it, fails for [list_available_apps]: with a service
    that answers every request with 403, the three methods are all tried for
    the first candidate, and no line of the remediation text is printed. *)
Lemma forbidden_probe_goes_on_to_the_next_method :
  let run := FindPackage.list_available_apps
               (Mock.table (fun _ => Mock.forbidden)) Mock.plain (boot tt) in
  firstn 3 (trace (snd run)) =
    [ (EditsList "com.example.measurebowl", Mock.forbidden);
      (EditsInsert "com.example.measurebowl", Mock.forbidden);
      (ReviewsList "com.example.measurebowl", Mock.forbidden) ] /\
  existsb (fun line => existsb (String.eqb line) AddServiceAccount.remediation)
    (stdout (snd run)) = false.
Proof. split; vm_compute; reflexivity. Qed.

Lemma forbidden_is_explained_or_passed_over_witness :
  AddServiceAccount.add_service_account_to_play_console
    (Mock.table (fun _ => Mock.forbidden)) (boot tt) =
    (inr false,
     {| remote := tt;
        stdout :=
          [ "Attempting to add service account: "
              +++ AddServiceAccount.service_account_email;
            "To package: " +++ AddServiceAccount.package_name;
            NL +++ "Testing service account access..." ]
          ++ AddServiceAccount.remediation;
        trace := [(EditsGet AddServiceAccount.package_name, Mock.forbidden)] |})
  /\
  FindPackage.try_methods (Mock.table (fun _ => Mock.forbidden)) Mock.plain
    FindPackage.methods "com.example.measurebowl" [] (boot tt) =
    FindPackage.try_methods (Mock.table (fun _ => Mock.forbidden)) Mock.plain
      [ ("edits().insert()", EditsInsert);
        ("reviews().list()", ReviewsList) ]
      "com.example.measurebowl" []
      {| remote := tt;
         stdout := ["  ⚠️  edits().list(): <HttpError 403>"];
         trace := [(EditsList "com.example.measurebowl", Mock.forbidden)] |}.
Proof.
  split.
  - exact (proj1 (forbidden_is_explained_or_passed_over
                    (Mock.table (fun _ => Mock.forbidden)) Mock.plain)
             tt Mock.credentials "<HttpError 403>" tt
             eq_refl eq_refl eq_refl).
  - exact (proj2 (forbidden_is_explained_or_passed_over
                    (Mock.table (fun _ => Mock.forbidden)) Mock.plain)
             "edits().list()" EditsList
             [ ("edits().insert()", EditsInsert);
               ("reviews().list()", ReviewsList) ]
             "com.example.measurebowl" [] (boot tt) "<HttpError 403>" tt
             eq_refl).
Defined.

(** *** Nothing found *)

Lemma nothing_found_is_reported_witness :
  (exists w' out,
      FindPackage.list_available_apps (Mock.table (fun _ => Mock.not_found))
        Mock.plain (boot tt) = (inr None, w') /\
      remote w' = tt /\
      stdout w' = out ++ [NL +++ "❌ No accessible packages found"]) /\
  (exists w' out,
      TestPackage.test_package_variations
        (Mock.table (fun _ => Mock.not_found)) Mock.plain (boot tt)
        = (inr None, w') /\
      remote w' = tt /\
      stdout w' =
        out ++
        [ NL +++ "❌ None of the common variations were found.";
          "You'll need to check the exact package name in Google Play Console." ]) /\
  (exists w' out,
      PublishRelease.publish_existing_release
        (Mock.table (fun _ => Mock.not_found)) Mock.plain (boot tt)
        = (inr false, w') /\
      remote w' = tt /\
      stdout w' = out ++ [NL +++ "❌ No existing releases found to publish"]).
Proof.
  pose proof (nothing_found_is_reported
                (Mock.table (fun _ => Mock.not_found)) Mock.plain
                tt Mock.credentials eq_refl) as (Hfind & Htest & Hpublish).
  split; [|split].
  - exact (Hfind tt eq_refl).
  - exact (Htest tt eq_refl).
  - exact (Hpublish tt eq_refl).
Defined.

(** *** Order, determinism, results *)

Lemma candidates_visited_once_in_order_witness :
  FindTrace.visits FindPackage.package_patterns
    (map fst (trace (snd (FindPackage.list_available_apps
                            (Mock.table Mock.only_dojo) Mock.plain
                            (boot tt))))) /\
  NoDup (map fst (trace (snd (FindPackage.list_available_apps
                                (Mock.table Mock.only_dojo) Mock.plain
                                (boot tt))))).
Proof.
  exact (candidates_visited_once_in_order (Mock.table Mock.only_dojo)
           Mock.plain tt Mock.credentials eq_refl).
Defined.

Lemma same_responses_same_run_witness :
  fst (FindPackage.list_available_apps
         (Mock.table (fun _ => Mock.not_found)) Mock.plain (boot tt)) =
    fst (FindPackage.list_available_apps Mock.playback Mock.plain
           (boot (repeat Mock.not_found 24))) /\
  stdout (snd (FindPackage.list_available_apps
                 (Mock.table (fun _ => Mock.not_found)) Mock.plain
                 (boot tt))) =
    stdout (snd (FindPackage.list_available_apps Mock.playback Mock.plain
                   (boot (repeat Mock.not_found 24)))).
Proof.
  apply (same_responses_same_run (Mock.table (fun _ => Mock.not_found))
           Mock.playback Mock.plain tt (repeat Mock.not_found 24)).
  - reflexivity.
  - vm_compute; reflexivity.
Defined.

Lemma returned_name_is_a_candidate_witness :
  In "com.dojo.measurebowl" FindPackage.package_patterns /\
  In "com.dojo.measurebowl" TestPackage.package_variations.
Proof.
  pose proof (returned_name_is_a_candidate (Mock.table Mock.only_dojo)
                Mock.plain (boot tt) "com.dojo.measurebowl")
    as (Hfind & Htest).
  split.
  - apply Hfind. vm_compute; reflexivity.
  - apply Htest. vm_compute; reflexivity.
Defined.

(* ================================================================== *)
(** * The rest of the scripts *)
(* ================================================================== *)

(** ** The [if __name__ == "__main__"] blocks *)

Module Entry.
Section Script.
Context {St : Type} (H : Host St) (F : Fmt).

(** [if result:] on the value a probe function returns: [None] and the
    empty string are false. *)
Definition truthy_name (result : option string) : bool :=
  match result with
  | Some name => negb (String.eqb name "")
  | None => false
  end.

(** [str(result)] as the f-strings interpolate it. *)
Definition str_name (result : option string) : string :=
  match result with
  | Some name => name
  | None => "None"
  end.

(** find_package.py, lines 69 to 74. *)
Definition find_package_main : M St unit :=
  result <- FindPackage.list_available_apps H F ;;
  if truthy_name result then
    print (NL +++ "✅ Use this package name: " +++ str_name result)
  else
    print (NL +++ "❌ Could not find any accessible packages").

(** test_package.py, lines 53 to 57. *)
Definition test_package_main : M St unit :=
  result <- TestPackage.test_package_variations H F ;;
  if truthy_name result then
    print (NL +++ "🎉 SUCCESS! Use package name: " +++ str_name result) ;;
    print "Update the Fastfile with this package name."
  else
    ret tt.

End Script.
End Entry.

(** ** Vocabulary *)

(** The packages of the exchanges that returned a body, in order. *)
Definition succeeded (T : list (call * response)) : list string :=
  map (fun cr => package_of (fst cr))
    (filter (fun cr => negb (is_failure (snd cr))) T).

(** The response is a body with an ['id'] entry: what the insert probes of
    test_package.py and test_example_package.py need to report a find. *)
Definition found_edit (r : response) : bool :=
  match r with
  | inr edit => match getitem edit "id" with inr _ => true | inl _ => false end
  | inl _ => false
  end.

(** The response is a body for which the test of publish_release.py,
    line 35, is false. *)
Definition no_edits (r : response) : bool :=
  match r with
  | inr body =>
      match PublishRelease.has_edits body with
      | inr false => true
      | _ => false
      end
  | inl _ => false
  end.

Definition is_listing (c : call) : bool :=
  match c with EditsList _ => true | _ => false end.

Module AddServiceAccountTrace.

(** The first line the [except] clauses of add_service_account.py print. *)
Definition error_line (e : exn) : string :=
  match e with
  | HttpError status _ =>
      if (status =? 404)%Z then
        "❌ App with package name '" +++ AddServiceAccount.package_name
          +++ "' not found."
      else if (status =? 403)%Z then
        "❌ Service account doesn't have access to this app."
      else "❌ Error: " +++ str_exn e
  | _ => "Unexpected error: " +++ str_exn e
  end.

End AddServiceAccountTrace.

Module TestPackageShape.

(** The exchanges of the loop of [test_package_variations] over a list of
    candidates, and its result: inserts in order, the loop ending at the
    first response that is a find. *)
Inductive test_trace
  : list string -> list (call * response) -> option string -> Prop :=
| tt_done : test_trace [] [] None
| tt_next p ps r T res :
    found_edit r = false -> test_trace ps T res ->
    test_trace (p :: ps) ((EditsInsert p, r) :: T) res
| tt_found p ps r :
    found_edit r = true ->
    test_trace (p :: ps) [(EditsInsert p, r)] (Some p).

End TestPackageShape.

(** ** add_service_account.py: the one probe *)

Section AddServiceAccountProbe.
Context {St : Type} (H : Host St).
Import AddServiceAccount.

Lemma print_all_run lines (w : World St) :
  print_all lines w =
    (inr tt, {| remote := remote w;
                stdout := stdout w ++ lines;
                trace := trace w |}).
Proof.
  revert w. induction lines as [|l ls IH]; intros w; cbn [print_all].
  - unfold ret. rewrite app_nil_r. now destruct w.
  - unfold bind, print. rewrite IH. cbn [remote stdout trace].
    now rewrite <- app_assoc.
Qed.

(** The inner [except HttpError] clause prints its lines and gives
    [False]. *)
Lemma on_http_error_spec st t (w : World St) :
  exists O,
    on_http_error (HttpError st t) w =
      (inr false, {| remote := remote w;
                     stdout := stdout w ++ O;
                     trace := trace w |}) /\
    In (AddServiceAccountTrace.error_line (HttpError st t)) O.
Proof.
  unfold on_http_error, AddServiceAccountTrace.error_line.
  destruct (st =? 404)%Z; [|destruct (st =? 403)%Z].
  - eexists [_; _]. unfold bind, print, ret. cbn [remote stdout trace].
    rewrite <- app_assoc. split; [reflexivity|]. left. reflexivity.
  - exists remediation. unfold bind, ret. rewrite print_all_run.
    split; [reflexivity|]. left. reflexivity.
  - eexists [_]. unfold bind, print, ret. cbn [remote stdout trace].
    split; [reflexivity|]. left. reflexivity.
Qed.

(** With the key file present and loaded, the script sends exactly one
    request, [edits().get] for the hard-coded package; it returns [True]
    when that request returns and [False] when it raises, whatever is
    raised, and then the first line of the matching [except] clause is on
    standard output. *)
Theorem add_service_account_sends_one_probe s c :
  path_exists H credentials_path = true ->
  from_service_account_file H credentials_path = inr c ->
  exists w',
    add_service_account_to_play_console H (boot s) =
      (inr (negb (is_failure (fst (execute H (EditsGet package_name) s)))),
       w') /\
    remote w' = snd (execute H (EditsGet package_name) s) /\
    trace w' =
      [(EditsGet package_name, fst (execute H (EditsGet package_name) s))] /\
    reported (fun _ e => AddServiceAccountTrace.error_line e)
      (trace w') (stdout w').
Proof.
  intros Hexists Hload.
  unfold add_service_account_to_play_console. rewrite Hexists.
  unfold bind, try_, load_credentials, eval, request, print, ret.
  cbn [negb remote stdout trace boot app]. rewrite Hload.
  destruct (execute H (EditsGet package_name) s) as [[e|v] s1];
    cbn [fst snd is_failure negb].
  - destruct e as [st t|k|t|t].
    + match goal with
      | |- context [on_http_error _ ?w0] =>
          destruct (on_http_error_spec st t w0) as (O & -> & Hin)
      end.
      eexists. split; [reflexivity|]. cbn [remote stdout trace].
      repeat split. intros c' e' [[= <- <-]|[]].
      apply in_or_app. right. exact Hin.
    + cbn [on_http_error]. unfold raise. cbn [remote stdout trace].
      eexists. repeat split. intros c' e' [[= <- <-]|[]].
      apply in_or_app. right. left. reflexivity.
    + cbn [on_http_error]. unfold raise. cbn [remote stdout trace].
      eexists. repeat split. intros c' e' [[= <- <-]|[]].
      apply in_or_app. right. left. reflexivity.
    + cbn [on_http_error]. unfold raise. cbn [remote stdout trace].
      eexists. repeat split. intros c' e' [[= <- <-]|[]].
      apply in_or_app. right. left. reflexivity.
  - eexists. repeat split. intros c' e' [[=]|[]].
Qed.

End AddServiceAccountProbe.

Lemma add_service_account_sends_one_probe_witness :
  exists w',
    AddServiceAccount.add_service_account_to_play_console
      (Mock.table Mock.only_dojo) (boot tt) = (inr false, w') /\
    trace w' = [(EditsGet "com.dojo.measurebowl", Mock.not_found)].
Proof.
  destruct (add_service_account_sends_one_probe (Mock.table Mock.only_dojo)
              tt Mock.credentials eq_refl eq_refl)
    as (w' & Hrun & _ & Ht & _).
  exists w'. split; [exact Hrun|exact Ht].
Defined.

(** ** A key file that does not load *)

Section KeyFileFailure.
Context {St : Type} (H : Host St) (F : Fmt).

(** The key file is loaded before any [try]: when loading raises, each of
    the five functions raises the same exception, with nothing printed and
    nothing sent (add_service_account.py gets that far only when the path
    exists). *)
Theorem key_file_failure_propagates s e :
  (path_exists H AddServiceAccount.credentials_path = true ->
   from_service_account_file H AddServiceAccount.credentials_path = inl e ->
   AddServiceAccount.add_service_account_to_play_console H (boot s)
     = (inl e, boot s)) /\
  (from_service_account_file H measurebowl_credentials = inl e ->
   PublishRelease.publish_existing_release H F (boot s) = (inl e, boot s) /\
   FindPackage.list_available_apps H F (boot s) = (inl e, boot s) /\
   TestPackage.test_package_variations H F (boot s) = (inl e, boot s) /\
   TestExamplePackage.test_example_package H F (boot s) = (inl e, boot s)).
Proof.
  split.
  - intros Hexists Hload.
    unfold AddServiceAccount.add_service_account_to_play_console.
    rewrite Hexists. unfold bind, load_credentials, eval. cbn [negb].
    now rewrite Hload.
  - intros Hload. repeat split.
    + unfold PublishRelease.publish_existing_release, bind, load_credentials,
        eval. now rewrite Hload.
    + unfold FindPackage.list_available_apps, bind, load_credentials, eval.
      now rewrite Hload.
    + unfold TestPackage.test_package_variations, bind, load_credentials,
        eval. now rewrite Hload.
    + unfold TestExamplePackage.test_example_package, bind, load_credentials,
        eval. now rewrite Hload.
Qed.

End KeyFileFailure.

(** ** publish_release.py: the test for pending edits *)

Section HasEdits.
Import PublishRelease.

(** The test of line 35 holds exactly for a dictionary whose ['edits']
    entry is truthy, and on a dictionary it never raises: a missing key
    makes it false. *)
Theorem has_edits_needs_a_dict_with_edits :
  (forall body,
      has_edits body = inr true <->
      exists d v, body = PDict d /\ lookup "edits" d = Some v /\
                  truthy v = true) /\
  (forall d, exists b, has_edits (PDict d) = inr b) /\
  (forall d, lookup "edits" d = None -> has_edits (PDict d) = inr false).
Proof.
  split; [|split].
  - intros body. split.
    + destruct body as [| | |s|l|d]; unfold has_edits;
        cbn [contains getitem]; try discriminate.
      * destruct (is_substring "edits" s); discriminate.
      * destruct (existsb _ l); discriminate.
      * destruct (lookup "edits" d) as [v|] eqn:E; [|discriminate].
        intros [= Ht]. now exists d, v.
    + intros (d & v & -> & E & Ht). unfold has_edits. cbn [contains getitem].
      rewrite E. now rewrite Ht.
  - intros d. unfold has_edits. cbn [contains getitem].
    destruct (lookup "edits" d); eexists; reflexivity.
  - intros d E. unfold has_edits. cbn [contains]. now rewrite E.
Qed.

End HasEdits.

Lemma has_edits_needs_a_dict_with_edits_witness :
  PublishRelease.has_edits (Mock.edits_body [Mock.app_edit "41"]) = inr true /\
  PublishRelease.has_edits (PDict [("kind", PStr "x")]) = inr false.
Proof.
  split.
  - apply (proj1 has_edits_needs_a_dict_with_edits).
    exists [("edits", PList [Mock.app_edit "41"])], (PList [Mock.app_edit "41"]).
    repeat split.
  - apply (proj2 (proj2 has_edits_needs_a_dict_with_edits)). reflexivity.
Defined.

Lemma key_file_failure_propagates_witness :
  PublishRelease.publish_existing_release Mock.no_key_file Mock.plain (boot tt)
    = (inl (Exception "No such file or directory"), boot tt) /\
  FindPackage.list_available_apps Mock.no_key_file Mock.plain (boot tt)
    = (inl (Exception "No such file or directory"), boot tt).
Proof.
  destruct (proj2 (key_file_failure_propagates Mock.no_key_file Mock.plain tt
                     (Exception "No such file or directory")) eq_refl)
    as (Hpublish & Hfind & _).
  split; [exact Hpublish|exact Hfind].
Defined.

(** ** publish_release.py: results and requests *)

Section PublishResults.
Context {St : Type} (H : Host St) (F : Fmt).
Import PublishRelease PublishTrace.

Lemma loop_trace_true_iff ps T r :
  loop_trace ps T r ->
  (r = Some true <->
   exists pre id pkg v, T = pre ++ [(EditsCommit id pkg, inr v)]).
Proof.
  intros Hlt. split.
  - induction Hlt as [|p ps T T' r Hat Hlt IH|p ps T b Hat].
    + discriminate.
    + intros Hr. destruct (IH Hr) as (pre & id & pkg & v & ->).
      exists (T ++ pre), id, pkg, v. now rewrite app_assoc.
    + intros _. apply attempt_trace_return_inv in Hat.
      destruct Hat as (_ & body & first & rest & id & v & -> & _).
      now exists [(EditsList p, inr body)], id, p, v.
  - intros (pre & id & pkg & v & HT).
    now destruct (loop_trace_success_last _ _ _ Hlt _ _ _ _ _ HT).
Qed.

Lemma loop_trace_result_true ps T b : loop_trace ps T (Some b) -> b = true.
Proof.
  intros Hlt. remember (Some b) as r eqn:Hr.
  induction Hlt as [|p ps T T' r Hat Hlt IH|p ps T b' Hat].
  - discriminate.
  - auto.
  - injection Hr as ->. now apply attempt_trace_return_inv in Hat.
Qed.

(** [publish_existing_release] returns [True] exactly when its last
    request is a commit that returned. *)
Theorem publish_returns_true_iff_last_commit_succeeded s :
  fst (publish_existing_release H F (boot s)) = inr true <->
  exists pre id pkg v,
    trace (snd (publish_existing_release H F (boot s))) =
      pre ++ [(EditsCommit id pkg, inr v)].
Proof.
  destruct (publish_existing_release_spec H F s)
    as [(e & _ & ->)|(r & w' & -> & Hlt & _)]; cbn [fst snd boot trace].
  - split; [discriminate|]. intros (pre & id & pkg & v & HT).
    destruct pre; discriminate.
  - rewrite <- (loop_trace_true_iff _ _ _ Hlt).
    destruct r as [[|]|]; split; congruence.
Qed.

Lemma loop_trace_requests ps T r :
  loop_trace ps T r ->
  exists n,
    n <= length ps /\
    filter is_listing (map fst T) = map EditsList (firstn n ps) /\
    Forall (fun c => is_listing c || is_commit c = true) (map fst T) /\
    length T <= 2 * n /\
    (r = None -> n = length ps).
Proof.
  induction 1 as [|p ps T T' r Hat Hlt IH|p ps T b Hat].
  - exists 0. repeat split; auto.
  - destruct IH as (n & Hn & Hlist & Hkinds & Hlen & Hall).
    exists (S n). rewrite map_app, filter_app, length_app.
    apply attempt_trace_next_inv in Hat.
    destruct Hat as [[r0 ->]|(body & first & rest & id & e & -> & _)];
      cbn [map fst filter is_listing app firstn length]; rewrite Hlist;
      (repeat split;
       [lia|repeat (constructor; [reflexivity|]); exact Hkinds|lia
       |intros Hr; now rewrite (Hall Hr)]).
  - apply attempt_trace_return_inv in Hat.
    destruct Hat as (_ & body & first & rest & id & v & -> & _).
    exists 1. cbn. repeat split; try lia; try discriminate.
    repeat constructor.
Qed.

(** The requests of [publish_existing_release] are listings and commits
    only; the listings are those of an initial part of the hard-coded list,
    in order; there are at most ten requests; and when the function returns
    [False] every candidate was listed. *)
Theorem publish_lists_candidates_in_order s :
  let run := publish_existing_release H F (boot s) in
  (exists n, filter is_listing (map fst (trace (snd run))) =
             map EditsList (firstn n package_names)) /\
  Forall (fun c => is_listing c || is_commit c = true)
    (map fst (trace (snd run))) /\
  length (trace (snd run)) <= 10 /\
  (fst run = inr false ->
   filter is_listing (map fst (trace (snd run))) =
     map EditsList package_names).
Proof.
  cbv zeta.
  destruct (publish_existing_release_spec H F s)
    as [(e & _ & ->)|(r & w' & -> & Hlt & _)]; cbn [fst snd boot trace].
  - split; [now exists 0|]. split; [constructor|].
    split; [cbn; lia|discriminate].
  - destruct (loop_trace_requests _ _ _ Hlt)
      as (n & Hn & Hlist & Hkinds & Hlen & Hall).
    split; [now exists n|]. split; [exact Hkinds|]. split.
    + cbn [length package_names] in Hn. lia.
    + intros Hr. rewrite Hlist.
      destruct r as [b|].
      * rewrite (loop_trace_result_true _ _ _ Hlt) in Hr. discriminate.
      * rewrite (Hall eq_refl). now rewrite firstn_all.
Qed.

End PublishResults.

(** ** publish_release.py against a scenario, continued *)

(** The listing raised, or returned a body without pending edits: the cases
    in which an iteration sends nothing more. *)
Definition skipped (r : response) : bool := is_failure r || no_edits r.

Section PublishScenarios.
Context {St : Type} (H : Host St) (F : Fmt).
Import PublishRelease PublishTrace.

Lemma publish_attempt_no_edits p (w : World St) r s1 :
  execute H (EditsList p) (remote w) = (r, s1) ->
  no_edits r = true ->
  attempt H F p w =
    (inr Next,
     {| remote := s1;
        stdout := stdout w ++
          [ NL +++ "Trying package: " +++ p;
            "No existing edits found for " +++ p ];
        trace := trace w ++ [(EditsList p, r)] |}).
Proof.
  intros E Hno. destruct r as [e|body]; [discriminate|].
  cbn [no_edits] in Hno.
  destruct (has_edits body) as [e|[|]] eqn:Eh; try discriminate.
  unfold attempt, bind, try_, request, print, eval, ret.
  cbn [remote stdout trace]. rewrite E, Eh. cbn [remote stdout trace].
  now rewrite <- app_assoc.
Qed.

Lemma publish_attempt_skipped p (w : World St) r s1 :
  execute H (EditsList p) (remote w) = (r, s1) ->
  skipped r = true ->
  exists w1,
    attempt H F p w = (inr Next, w1) /\
    remote w1 = s1 /\
    trace w1 = trace w ++ [(EditsList p, r)].
Proof.
  intros E Hskip. destruct r as [e|body].
  - unfold attempt, bind, try_, request, print.
    cbn [remote stdout trace]. rewrite E, on_error_next.
    eexists. repeat split.
  - rewrite (publish_attempt_no_edits p w _ s1 E Hskip).
    eexists. repeat split.
Qed.

Lemma publish_loop_no_edits ps (w : World St) s' :
  answers H no_edits (map EditsList ps) (remote w) = Some s' ->
  exists w',
    for_each ps (attempt H F) w = (inr None, w') /\
    remote w' = s' /\
    map fst (trace w') = map fst (trace w) ++ map EditsList ps /\
    stdout w' =
      stdout w ++
      flat_map (fun p => [ NL +++ "Trying package: " +++ p;
                           "No existing edits found for " +++ p ]) ps.
Proof.
  revert w. induction ps as [|p ps IH]; intros w; cbn [map answers flat_map].
  - intros [= <-]. exists w. now rewrite !app_nil_r.
  - destruct (execute H (EditsList p) (remote w)) as [r s1] eqn:E.
    destruct (no_edits r) eqn:Hno; [|discriminate].
    intros Hrest. cbn [for_each]. unfold bind at 1.
    rewrite (publish_attempt_no_edits p w r s1 E Hno).
    match goal with
    | |- context [for_each ps (attempt H F) ?w0] =>
        destruct (IH w0 Hrest) as (w1 & -> & Hr & Ht & Ho)
    end.
    exists w1. cbn [trace stdout] in Ht, Ho.
    rewrite Ht, Ho, map_app, <- !app_assoc. now repeat split.
Qed.

Lemma publish_loop_skipped before rest (w : World St) s1 :
  answers H skipped (map EditsList before) (remote w) = Some s1 ->
  exists w1,
    for_each (before ++ rest) (attempt H F) w =
      for_each rest (attempt H F) w1 /\
    remote w1 = s1 /\
    map fst (trace w1) = map fst (trace w) ++ map EditsList before /\
    exists O, stdout w1 = stdout w ++ O.
Proof.
  revert w. induction before as [|p before IH]; intros w;
    cbn [map answers app].
  - intros [= <-]. exists w. rewrite app_nil_r. repeat split.
    exists []. now rewrite app_nil_r.
  - destruct (execute H (EditsList p) (remote w)) as [r s0] eqn:E.
    destruct (skipped r) eqn:Hskip; [|discriminate].
    intros Hrest. cbn [for_each]. unfold bind at 1.
    destruct (attempt_spec H F p w) as (c & wa & T & O & Hrun & _ & Ho & _).
    destruct (publish_attempt_skipped p w r s0 E Hskip)
      as (w0 & Hrun' & Hr0 & Ht0).
    rewrite Hrun' in Hrun. injection Hrun as <- <-.
    rewrite Hrun'. rewrite <- Hr0 in Hrest.
    destruct (IH w0 Hrest) as (w1 & -> & Hr & Ht & O' & Ho').
    exists w1. rewrite Ht, Ht0, map_app, <- app_assoc.
    repeat split; [assumption|]. exists (O ++ O').
    now rewrite Ho', Ho, app_assoc.
Qed.

Lemma has_edits_of_list body first rest :
  getitem body "edits" = inr (PList (first :: rest)) ->
  has_edits body = inr true.
Proof.
  intros He. destruct body as [| | |s|l|d]; try discriminate.
  unfold has_edits. cbn [contains getitem] in *.
  destruct (lookup "edits" d) as [v|]; [|discriminate].
  injection He as ->. reflexivity.
Qed.

Lemma publish_attempt_commit p (w : World St) body first rest id s2 v s3 :
  execute H (EditsList p) (remote w) = (inr body, s2) ->
  getitem body "edits" = inr (PList (first :: rest)) ->
  getitem first "id" = inr id ->
  execute H (EditsCommit id p) s2 = (inr v, s3) ->
  attempt H F p w =
    (inr (Return true),
     {| remote := s3;
        stdout := stdout w ++
          [ NL +++ "Trying package: " +++ p;
            "Found existing edits for " +++ p;
            "Latest edit ID: " +++ str_of F id;
            "✅ SUCCESS! Published release for " +++ p;
            "Commit response: " +++ str_of F v ];
        trace := trace w ++
          [ (EditsList p, inr body); (EditsCommit id p, inr v) ] |}).
Proof.
  intros E1 He Hi E2.
  unfold attempt, bind, try_, request, print, eval, ret.
  cbn [remote stdout trace].
  rewrite E1, (has_edits_of_list _ _ _ He), He. cbn [getitem0].
  rewrite Hi. cbn [remote stdout trace]. rewrite E2.
  cbn [remote stdout trace]. now rewrite <- !app_assoc.
Qed.

(** With the key file loaded: when every listing returns a body for which
    the test for pending edits is false, the five candidates are listed in
    order, nothing is committed, each gets its two lines, the closing line
    follows and [False] is returned. *)
Theorem no_pending_edits_nothing_committed s c s' :
  from_service_account_file H measurebowl_credentials = inr c ->
  answers H no_edits (map EditsList package_names) s = Some s' ->
  exists w',
    publish_existing_release H F (boot s) = (inr false, w') /\
    remote w' = s' /\
    map fst (trace w') = map EditsList package_names /\
    stdout w' =
      flat_map (fun p => [ NL +++ "Trying package: " +++ p;
                           "No existing edits found for " +++ p ])
        package_names
      ++ [NL +++ "❌ No existing releases found to publish"].
Proof.
  intros Hload Hall.
  unfold publish_existing_release, publish_from, bind, load_credentials,
    eval, print, ret.
  rewrite Hload.
  destruct (publish_loop_no_edits package_names (boot s) s' Hall)
    as (w1 & -> & Hr & Ht & Ho).
  eexists. split; [reflexivity|]. cbn [remote stdout trace].
  rewrite Ht, Ho. now repeat split.
Qed.

(** The loop of [publish_existing_release] over [before ++ p :: after]:
    when the listings for [before] raise or show no pending edits, the
    listing for [p] returns a body whose ['edits'] is a non-empty list with
    an ['id'] in its first element, and the commit of that id returns, the
    run ends there with [True]: the requests are the listings of [before],
    the listing of [p] and the commit, and the last two lines announce the
    release. *)
Theorem first_pending_edit_is_committed
    before p after s s1 body first rest id s2 v s3 :
  answers H skipped (map EditsList before) s = Some s1 ->
  execute H (EditsList p) s1 = (inr body, s2) ->
  getitem body "edits" = inr (PList (first :: rest)) ->
  getitem first "id" = inr id ->
  execute H (EditsCommit id p) s2 = (inr v, s3) ->
  exists w' out,
    publish_from H F (before ++ p :: after) (boot s) = (inr true, w') /\
    remote w' = s3 /\
    map fst (trace w') =
      map EditsList before ++ [EditsList p; EditsCommit id p] /\
    stdout w' =
      out ++ [ "✅ SUCCESS! Published release for " +++ p;
               "Commit response: " +++ str_of F v ].
Proof.
  intros Hbefore E1 He Hi E2.
  unfold publish_from, bind.
  destruct (publish_loop_skipped before (p :: after) (boot s) s1 Hbefore)
    as (w1 & -> & Hr & Ht & O & Ho).
  cbn [for_each]. unfold bind. rewrite <- Hr in E1.
  rewrite (publish_attempt_commit p w1 body first rest id s2 v s3 E1 He Hi E2).
  unfold ret.
  exists {| remote := s3;
            stdout := stdout w1 ++
              [ NL +++ "Trying package: " +++ p;
                "Found existing edits for " +++ p;
                "Latest edit ID: " +++ str_of F id;
                "✅ SUCCESS! Published release for " +++ p;
                "Commit response: " +++ str_of F v ];
            trace := trace w1 ++
              [ (EditsList p, inr body); (EditsCommit id p, inr v) ] |},
    (stdout w1 ++ [ NL +++ "Trying package: " +++ p;
                    "Found existing edits for " +++ p;
                    "Latest edit ID: " +++ str_of F id ]).
  cbn [remote stdout trace]. rewrite map_app, Ht, <- app_assoc.
  cbn [boot trace map fst app].
  split; [reflexivity|]. split; [reflexivity|]. split; [reflexivity|].
  now rewrite <- app_assoc.
Qed.

End PublishScenarios.

(** ** find_package.py: what is found and what is returned *)

Section FindResults.
Context {St : Type} (H : Host St) (F : Fmt).
Import FindPackage FindTrace.

Lemma succeeded_app T T' : succeeded (T ++ T') = succeeded T ++ succeeded T'.
Proof. unfold succeeded. now rewrite filter_app, map_app. Qed.

Lemma probe_succeeded p ms T O hit :
  probe F p ms T O hit ->
  Forall (fun m => forall q, package_of (snd m q) = q) ms ->
  succeeded T = if hit then [p] else [].
Proof.
  induction 1 as [|name f ms v|name f ms e T O hit Hp IH]; intros Hms.
  - reflexivity.
  - inversion Hms as [|m ms' Hm Hms']; subst.
    specialize (Hm p). cbn [snd] in Hm.
    unfold succeeded. cbn [filter snd fst is_failure negb map]. now rewrite Hm.
  - inversion Hms as [|m ms' Hm Hms']; subst.
    unfold succeeded. cbn [filter snd is_failure negb]. now apply IH.
Qed.

Lemma methods_keep_package :
  Forall (fun m => forall q, package_of (snd m q) = q) methods.
Proof. repeat constructor. Qed.

(** [found_packages] grows by the packages of the exchanges that returned a
    body, in order. *)
Lemma sweep_succeeded ps found T O found' :
  sweep F ps found T O found' -> found' = found ++ succeeded T.
Proof.
  induction 1 as [found|p ps found T O hit T' O' found' Hp Hs IH].
  - now rewrite app_nil_r.
  - rewrite IH, succeeded_app,
      (probe_succeeded _ _ _ _ _ Hp methods_keep_package).
    destruct hit; [now rewrite <- app_assoc|reflexivity].
Qed.

Lemma sweep_succeeded_nodup ps found T O found' :
  sweep F ps found T O found' -> NoDup ps -> NoDup (succeeded T).
Proof.
  induction 1 as [found|p ps found T O hit T' O' found' Hp Hs IH];
    intros Hnd.
  - constructor.
  - inversion Hnd as [|p' ps' Hnotin Hnd']; subst p' ps'.
    rewrite succeeded_app,
      (probe_succeeded _ _ _ _ _ Hp methods_keep_package).
    destruct hit; [|now apply IH].
    cbn [app]. constructor; [|now apply IH].
    intros Hin. apply Hnotin.
    destruct (sweep_found F _ _ _ _ _ Hs) as (l & Hl & Hincl).
    rewrite (sweep_succeeded _ _ _ _ _ Hs) in Hl.
    apply app_inv_head in Hl. subst l. now apply Hincl.
Qed.

(** [list_available_apps] goes on after a find, and returns the package of
    the first request that returned a body, [None] when no request did; no
    package has two such requests, because a success ends the method loop
    for its package. *)
Theorem find_returns_first_success s c :
  from_service_account_file H measurebowl_credentials = inr c ->
  fst (list_available_apps H F (boot s)) =
    inr (hd_error (succeeded (trace (snd (list_available_apps H F (boot s))))))
  /\ NoDup (succeeded (trace (snd (list_available_apps H F (boot s))))).
Proof.
  intros Hload.
  destruct (list_available_apps_spec H F s)
    as [(e & Hfail & _)|(c' & found & w' & O & _ & -> & Hs & _)];
    [congruence|].
  cbn [fst snd]. split.
  - now rewrite (sweep_succeeded _ _ _ _ _ Hs).
  - eapply sweep_succeeded_nodup; [eassumption|].
    apply package_patterns_nodup.
Qed.

Lemma package_patterns_not_empty p :
  In p package_patterns -> String.eqb p "" = false.
Proof. cbn. intuition (subst; reflexivity). Qed.

(** The [__main__] block of find_package.py: after the run of
    [list_available_apps] it prints one more line, the name to use when a
    name was returned and the failure line otherwise. *)
Theorem find_package_main_announces_the_result s c :
  from_service_account_file H measurebowl_credentials = inr c ->
  Entry.find_package_main H F (boot s) =
    (inr tt,
     {| remote := remote (snd (list_available_apps H F (boot s)));
        stdout :=
          stdout (snd (list_available_apps H F (boot s))) ++
          [ match fst (list_available_apps H F (boot s)) with
            | inr (Some p) => NL +++ "✅ Use this package name: " +++ p
            | _ => NL +++ "❌ Could not find any accessible packages"
            end ];
        trace := trace (snd (list_available_apps H F (boot s))) |}).
Proof.
  intros Hload. unfold Entry.find_package_main, bind.
  pose proof (list_available_apps_returns_candidate H F (boot s)) as Hcand.
  destruct (list_available_apps_spec H F s)
    as [(e & Hfail & _)|(c' & found & w' & O & _ & Hrun & _)];
    [congruence|].
  rewrite Hrun in *. cbn [fst snd] in *.
  destruct (hd_error found) as [p|]; cbn [Entry.truthy_name Entry.str_name].
  - rewrite (package_patterns_not_empty p (Hcand p eq_refl)). reflexivity.
  - reflexivity.
Qed.

Lemma visits_no_commit ps cs :
  visits ps cs -> Forall (fun c => is_commit c = false) cs.
Proof.
  induction 1 as [|p ps n cs Hn Hv IH]; [constructor|].
  apply Forall_app. split; [|assumption].
  apply Forall_forall. intros c Hc. apply in_firstn in Hc.
  cbn in Hc. intuition (subst; reflexivity).
Qed.

End FindResults.

Lemma find_returns_first_success_witness :
  fst (FindPackage.list_available_apps (Mock.table Mock.only_dojo) Mock.plain
         (boot tt)) = inr (Some "com.dojo.measurebowl") /\
  succeeded (trace (snd (FindPackage.list_available_apps
                           (Mock.table Mock.only_dojo) Mock.plain (boot tt))))
    = ["com.dojo.measurebowl"].
Proof.
  split.
  - rewrite (proj1 (find_returns_first_success (Mock.table Mock.only_dojo)
                      Mock.plain tt Mock.credentials eq_refl)).
    vm_compute; reflexivity.
  - vm_compute; reflexivity.
Defined.

Lemma find_package_main_announces_the_result_witness :
  exists out,
    stdout (snd (Entry.find_package_main (Mock.table Mock.only_dojo)
                   Mock.plain (boot tt))) =
      out ++ [NL +++ "✅ Use this package name: com.dojo.measurebowl"].
Proof.
  rewrite (find_package_main_announces_the_result (Mock.table Mock.only_dojo)
             Mock.plain tt Mock.credentials eq_refl).
  eexists. cbn [snd stdout]. f_equal.
Defined.

(** ** test_package.py: the shape of every run *)

Section TestPackageShapes.
Context {St : Type} (H : Host St) (F : Fmt).
Import TestPackage TestPackageShape.

(** One iteration sends one insert; it returns its candidate when the
    response is a find, and goes on otherwise. *)
Lemma test_attempt_shape p (w : World St) :
  exists r w1 O,
    attempt H F p w =
      (inr (if found_edit r then Return p else Next), w1) /\
    trace w1 = trace w ++ [(EditsInsert p, r)] /\
    stdout w1 = stdout w ++ O /\
    reported (fun c e => TestPackageTrace.error_line (package_of c) e)
      [(EditsInsert p, r)] O.
Proof.
  unfold attempt, bind, try_, request, print, eval, ret.
  cbn [remote stdout trace].
  destruct (execute H (EditsInsert p) (remote w)) as [[e|edit] s1].
  - rewrite test_on_error_next. exists (inl e). eexists _, [_].
    cbn [found_edit trace stdout]. repeat split.
    intros c' e' [[= <- <-]|[]]. now left.
  - exists (inr edit). cbn [found_edit].
    destruct (getitem edit "id") as [e|id]; cbn [remote stdout trace].
    + rewrite test_on_error_next. eexists _, [_; _].
      cbn [trace stdout]. rewrite <- app_assoc. repeat split.
      intros c' e' [[=]|[]].
    + eexists _, [_; _]. cbn [trace stdout]. rewrite <- app_assoc.
      repeat split. intros c' e' [[=]|[]].
Qed.

Lemma test_loop_shape ps (w : World St) :
  exists res w' T O,
    for_each ps (attempt H F) w = (inr res, w') /\
    trace w' = trace w ++ T /\
    stdout w' = stdout w ++ O /\
    test_trace ps T res /\
    reported (fun c e => TestPackageTrace.error_line (package_of c) e) T O.
Proof.
  revert w. induction ps as [|p ps IH]; intros w.
  - exists None, w, [], []. rewrite !app_nil_r.
    repeat split; [constructor|apply reported_nil].
  - cbn [for_each]. unfold bind at 1.
    destruct (test_attempt_shape p w) as (r & w1 & O & -> & Ht & Ho & Hrep).
    destruct (found_edit r) eqn:Hfound.
    + exists (Some p), w1, [(EditsInsert p, r)], O.
      repeat split; try assumption. now constructor.
    + destruct (IH w1) as (res & w2 & T' & O' & -> & Ht' & Ho' & Htt & Hrep').
      exists res, w2, ((EditsInsert p, r) :: T'), (O ++ O').
      rewrite Ht', Ht, Ho', Ho, <- !app_assoc.
      repeat split; [now constructor|].
      exact (reported_app _ _ _ _ _ Hrep Hrep').
Qed.

(** A run of the script: either the key file fails to load and nothing
    else happens, or the loop runs over the hard-coded candidates. *)
Lemma test_package_variations_spec s :
  (exists e, from_service_account_file H measurebowl_credentials = inl e /\
             test_package_variations H F (boot s) = (inl e, boot s)) \/
  (exists res w',
      test_package_variations H F (boot s) = (inr res, w') /\
      test_trace package_variations (trace w') res /\
      reported (fun c e => TestPackageTrace.error_line (package_of c) e)
        (trace w') (stdout w')).
Proof.
  unfold test_package_variations, test_among, bind, load_credentials, eval,
    print, ret.
  cbn [remote stdout trace boot].
  destruct (from_service_account_file H measurebowl_credentials) as [e|c].
  - left. now exists e.
  - right.
    match goal with
    | |- context [for_each package_variations (attempt H F) ?w0] =>
        destruct (test_loop_shape package_variations w0)
          as (res & w1 & T & O & -> & Ht & Ho & Htt & Hrep)
    end.
    cbn [trace stdout app] in Ht, Ho.
    destruct res as [p|]; eexists _, _; (split; [reflexivity|]);
      cbn [trace stdout]; rewrite ?Ht, ?Ho; (split; [assumption|]);
      intros c0 e0 Hin; specialize (Hrep c0 e0 Hin);
      cbn [In app]; rewrite ?in_app_iff; cbn [In]; tauto.
Qed.

Lemma test_trace_calls ps T res :
  test_trace ps T res ->
  exists n, n <= length ps /\
            map fst T = map EditsInsert (firstn n ps) /\
            (res = None ->
             n = length ps /\
             Forall (fun cr => found_edit (snd cr) = false) T).
Proof.
  induction 1 as [|p ps r T res Hr Htt IH|p ps r Hr].
  - exists 0. repeat split; auto.
  - destruct IH as (n & Hn & Hcalls & Hnone). exists (S n).
    cbn [map fst firstn length]. rewrite Hcalls.
    split; [lia|]. split; [reflexivity|].
    intros Hres. destruct (Hnone Hres) as [Hlen Hall].
    split; [now rewrite Hlen|now constructor].
  - exists 1. cbn. repeat split; try lia; discriminate.
Qed.

Lemma test_trace_find_is_last ps T res :
  test_trace ps T res ->
  forall pre cr post,
    T = pre ++ cr :: post -> found_edit (snd cr) = true ->
    post = [] /\ res = Some (package_of (fst cr)).
Proof.
  induction 1 as [|p ps r T res Hr Htt IH|p ps r Hr];
    intros pre cr post HT Hfound.
  - destruct pre; discriminate.
  - destruct pre as [|a pre].
    + injection HT as <- _. cbn [snd] in Hfound. congruence.
    + injection HT as _ HT. eapply IH; eassumption.
  - destruct pre as [|a pre].
    + injection HT as <- <-. now split.
    + injection HT as _ HT. destruct pre; discriminate.
Qed.

(** The requests of [test_package_variations] are inserts for an initial
    part of the hard-coded list, in order.  A response that is a find (a
    body with an ['id']) is the last exchange, and its package is returned.
    When [None] is returned, all nine candidates were tried and no response
    was a find. *)
Theorem test_package_stops_at_the_first_find s :
  let run := test_package_variations H F (boot s) in
  (exists n, map fst (trace (snd run)) =
             map EditsInsert (firstn n package_variations)) /\
  (forall pre cr post,
      trace (snd run) = pre ++ cr :: post ->
      found_edit (snd cr) = true ->
      post = [] /\ fst run = inr (Some (package_of (fst cr)))) /\
  (fst run = inr None ->
   map fst (trace (snd run)) = map EditsInsert package_variations /\
   Forall (fun cr => found_edit (snd cr) = false) (trace (snd run))).
Proof.
  cbv zeta.
  destruct (test_package_variations_spec s)
    as [(e & _ & ->)|(res & w' & -> & Htt & _)]; cbn [fst snd boot trace].
  - split; [now exists 0|]. split; [|discriminate].
    intros pre cr post HT. destruct pre; discriminate.
  - destruct (test_trace_calls _ _ _ Htt) as (n & Hn & Hcalls & Hnone).
    split; [now exists n|]. split.
    + intros pre cr post HT Hfound.
      destruct (test_trace_find_is_last _ _ _ Htt _ _ _ HT Hfound)
        as [-> ->].
      now split.
    + intros [= ->]. destruct (Hnone eq_refl) as [Hlen Hall].
      split; [|assumption]. now rewrite Hcalls, Hlen, firstn_all.
Qed.

Lemma package_variations_not_empty p :
  In p package_variations -> String.eqb p "" = false.
Proof. cbn. intuition (subst; reflexivity). Qed.

(** The [__main__] block of test_package.py: after the run of
    [test_package_variations] it prints two more lines when a name was
    returned, and nothing otherwise. *)
Theorem test_package_main_announces_a_find s c :
  from_service_account_file H measurebowl_credentials = inr c ->
  Entry.test_package_main H F (boot s) =
    (inr tt,
     {| remote := remote (snd (test_package_variations H F (boot s)));
        stdout :=
          stdout (snd (test_package_variations H F (boot s))) ++
          match fst (test_package_variations H F (boot s)) with
          | inr (Some p) =>
              [ NL +++ "🎉 SUCCESS! Use package name: " +++ p;
                "Update the Fastfile with this package name." ]
          | _ => []
          end;
        trace := trace (snd (test_package_variations H F (boot s))) |}).
Proof.
  intros Hload. unfold Entry.test_package_main, bind.
  pose proof (test_package_variations_returns_candidate H F (boot s))
    as Hcand.
  destruct (test_package_variations_spec s)
    as [(e & Hfail & _)|(res & w' & Hrun & _)]; [congruence|].
  rewrite Hrun in *. cbn [fst snd] in *.
  destruct res as [p|]; cbn [Entry.truthy_name Entry.str_name].
  - rewrite (package_variations_not_empty p (Hcand p eq_refl)).
    unfold bind, print, ret. cbn [remote stdout trace negb].
    now rewrite <- app_assoc.
  - unfold ret. rewrite app_nil_r. now destruct w'.
Qed.

End TestPackageShapes.

(** ** test_example_package.py: the one probe *)

Section TestExampleProbe.
Context {St : Type} (H : Host St) (F : Fmt).
Import TestExamplePackage.

(** With the key file loaded, the script sends exactly one request, the
    insert for [com.example.measurebowl], and returns [True] exactly when
    the response is a body with an ['id']: a body without one is announced
    as a success and then reported as an error, and gives [False]. *)
Theorem test_example_package_sends_one_probe s c :
  from_service_account_file H measurebowl_credentials = inr c ->
  exists w',
    test_example_package H F (boot s) =
      (inr (found_edit (fst (execute H (EditsInsert package_name) s))), w') /\
    remote w' = snd (execute H (EditsInsert package_name) s) /\
    trace w' =
      [(EditsInsert package_name,
        fst (execute H (EditsInsert package_name) s))] /\
    (forall edit e,
        fst (execute H (EditsInsert package_name) s) = inr edit ->
        getitem edit "id" = inl e ->
        stdout w' =
          [ "Testing access to package: " +++ package_name;
            "SUCCESS: Package " +++ package_name +++ " exists!";
            "ERROR: " +++ str_exn e ]).
Proof.
  intros Hload.
  unfold test_example_package, bind, try_, load_credentials, eval, request,
    print, ret.
  cbn [remote stdout trace boot]. rewrite Hload. cbn [app].
  destruct (execute H (EditsInsert package_name) s) as [[e|edit] s1];
    cbn [fst snd found_edit].
  - destruct e as [st t| | |]; cbn [on_error];
      [destruct (st =? 404)%Z|..];
      unfold bind, print, ret; cbn [remote stdout trace];
      eexists; repeat split; discriminate.
  - destruct (getitem edit "id") as [e|id] eqn:Eid; cbn [remote stdout trace].
    + assert (Hkind : exists k, e = KeyError k \/ e = TypeError k).
      { destruct edit as [| | |x|l|d]; cbn in Eid;
          try (injection Eid as <-; eexists; right; reflexivity).
        destruct (lookup "id" d); [discriminate|].
        injection Eid as <-. eexists. left. reflexivity. }
      destruct Hkind as (k & [-> | ->]); cbn [on_error];
        unfold bind, print, ret; cbn [remote stdout trace];
        eexists; repeat split;
        intros edit' e' [= <-] He'; rewrite Eid in He';
        injection He' as <-; reflexivity.
    + eexists. repeat split. intros edit' e' [= <-] He'.
      rewrite Eid in He'. discriminate.
Qed.

End TestExampleProbe.

(** ** The probing scripts never commit *)

Section NoCommit.
Context {St : Type} (H : Host St) (F : Fmt).

Lemma test_trace_no_commit ps T res :
  TestPackageShape.test_trace ps T res ->
  Forall (fun cr => is_commit (fst cr) = false) T.
Proof. induction 1; repeat constructor; assumption. Qed.

(** Whatever the service answers, the four scripts that only probe send no
    commit request: only [publish_existing_release] can publish. *)
Theorem probing_scripts_never_commit s :
  Forall (fun c => is_commit c = false)
    (map fst (trace (snd (FindPackage.list_available_apps H F (boot s))))) /\
  Forall (fun cr => is_commit (fst cr) = false)
    (trace (snd (TestPackage.test_package_variations H F (boot s)))) /\
  Forall (fun cr => is_commit (fst cr) = false)
    (trace (snd (TestExamplePackage.test_example_package H F (boot s)))) /\
  Forall (fun cr => is_commit (fst cr) = false)
    (trace (snd (AddServiceAccount.add_service_account_to_play_console H
                   (boot s)))).
Proof.
  split; [|split; [|split]].
  - destruct (list_available_apps_spec H F s)
      as [(e & _ & ->)|(c & found & w' & O & _ & -> & Hs & _)];
      cbn [snd boot trace map]; [constructor|].
    eapply visits_no_commit, sweep_visits; eassumption.
  - destruct (test_package_variations_spec H F s)
      as [(e & _ & ->)|(res & w' & -> & Htt & _)];
      cbn [snd boot trace]; [constructor|].
    eapply test_trace_no_commit; eassumption.
  - unfold TestExamplePackage.test_example_package, bind, try_,
      load_credentials, eval, request, print, ret.
    cbn [remote stdout trace boot].
    destruct (from_service_account_file H measurebowl_credentials) as [e|c];
      [constructor|].
    destruct (execute H (EditsInsert TestExamplePackage.package_name) s)
      as [[e|edit] s1].
    + destruct e as [st t| | |]; cbn [TestExamplePackage.on_error];
        [destruct (st =? 404)%Z|..]; repeat constructor.
    + destruct (getitem edit "id") as [e|id]; [|repeat constructor].
      destruct e as [st t| | |]; cbn [TestExamplePackage.on_error];
        [destruct (st =? 404)%Z|..]; repeat constructor.
  - unfold AddServiceAccount.add_service_account_to_play_console.
    destruct (path_exists H AddServiceAccount.credentials_path) eqn:Hexists;
      cbn [negb]; [|repeat constructor].
    destruct (from_service_account_file H AddServiceAccount.credentials_path)
      as [e|c] eqn:Hload.
    + unfold bind, load_credentials, eval. rewrite Hload. constructor.
    + unfold bind, try_, load_credentials, eval, request, print, ret.
      cbn [remote stdout trace boot]. rewrite Hload.
      destruct (execute H (EditsGet AddServiceAccount.package_name) s)
        as [[e|v] s1]; [|repeat constructor].
      destruct e as [st t|k|t|t].
      * match goal with
        | |- context [AddServiceAccount.on_http_error _ ?w0] =>
            destruct (on_http_error_spec st t w0) as (O & -> & _)
        end.
        repeat constructor.
      * repeat constructor.
      * repeat constructor.
      * repeat constructor.
Qed.

End NoCommit.

(** ** test_package.py: errors *)

Section TestPackageErrors.
Context {St : Type} (H : Host St) (F : Fmt).

(** With the key file loaded, whatever the service answers or raises,
    [test_package_variations] returns a value, and every insert that raised
    has the line of its [except] clause on standard output. *)
Theorem test_package_errors_are_caught_and_printed s c :
  from_service_account_file H measurebowl_credentials = inr c ->
  exists r w',
    TestPackage.test_package_variations H F (boot s) = (inr r, w') /\
    reported (fun c e => TestPackageTrace.error_line (package_of c) e)
      (trace w') (stdout w').
Proof.
  intros Hload.
  destruct (test_package_variations_spec H F s)
    as [(e & Hfail & _)|(res & w' & Hrun & _ & Hrep)]; [congruence|].
  now exists res, w'.
Qed.

End TestPackageErrors.

(** ** Concrete runs, continued *)

(** Only [com.dojo.measurebowl] has a pending edit, and its commit goes
    through; every other listing is answered with 404. *)
Definition pending_at_dojo (c : call) : response :=
  match c with
  | EditsList p =>
      if String.eqb p "com.dojo.measurebowl"
      then inr (Mock.edits_body [Mock.app_edit "42"])
      else Mock.not_found
  | EditsCommit id _ => inr (PDict [("id", id)])
  | _ => Mock.not_found
  end.

Lemma no_pending_edits_nothing_committed_witness :
  exists w',
    PublishRelease.publish_existing_release
      (Mock.table (fun _ => inr (PDict []))) Mock.plain (boot tt)
      = (inr false, w') /\
    map fst (trace w') = map EditsList PublishRelease.package_names.
Proof.
  destruct (no_pending_edits_nothing_committed
              (Mock.table (fun _ => inr (PDict []))) Mock.plain
              tt Mock.credentials tt eq_refl eq_refl)
    as (w' & Hrun & _ & Ht & _).
  exists w'. split; [exact Hrun|exact Ht].
Defined.

Lemma first_pending_edit_is_committed_witness :
  exists w',
    PublishRelease.publish_from (Mock.table pending_at_dojo) Mock.plain
      PublishRelease.package_names (boot tt) = (inr true, w') /\
    map fst (trace w') =
      [ EditsList "com.example.measurebowl";
        EditsList "com.dojo.measurebowl";
        EditsCommit (PStr "42") "com.dojo.measurebowl" ].
Proof.
  destruct (first_pending_edit_is_committed (Mock.table pending_at_dojo)
              Mock.plain
              ["com.example.measurebowl"] "com.dojo.measurebowl"
              ["com.measurebowl.app"; "com.measurebowl";
               "com.lawnbowls.measurebowl"]
              tt tt (Mock.edits_body [Mock.app_edit "42"])
              (Mock.app_edit "42") [] (PStr "42") tt
              (PDict [("id", PStr "42")]) tt
              eq_refl eq_refl eq_refl eq_refl eq_refl)
    as (w' & out & Hrun & _ & Ht & _).
  exists w'. split; [exact Hrun|exact Ht].
Defined.

Lemma test_package_errors_are_caught_and_printed_witness :
  exists r w',
    TestPackage.test_package_variations Mock.playback Mock.plain
      (boot [Mock.forbidden; Mock.server_error]) = (inr r, w') /\
    reported (fun c e => TestPackageTrace.error_line (package_of c) e)
      (trace w') (stdout w').
Proof.
  exact (test_package_errors_are_caught_and_printed Mock.playback Mock.plain
           [Mock.forbidden; Mock.server_error] Mock.credentials eq_refl).
Defined.

Lemma test_example_package_sends_one_probe_witness :
  exists w',
    TestExamplePackage.test_example_package Mock.playback Mock.plain
      (boot Mock.edit_without_id) = (inr false, w') /\
    stdout w' =
      [ "Testing access to package: com.example.measurebowl";
        "SUCCESS: Package com.example.measurebowl exists!";
        "ERROR: 'id'" ].
Proof.
  destruct (test_example_package_sends_one_probe Mock.playback Mock.plain
              Mock.edit_without_id Mock.credentials eq_refl)
    as (w' & Hrun & _ & _ & Hout).
  exists w'. split; [exact Hrun|].
  exact (Hout (PDict []) (KeyError "'id'") eq_refl eq_refl).
Defined.

Lemma test_package_main_announces_a_find_witness :
  stdout (snd (Entry.test_package_main (Mock.table Mock.only_dojo) Mock.plain
                 (boot tt))) =
    [ "Testing common package name variations...";
      "❌ Package com.measurebowl.app not found";
      "❌ Package com.measurebowl not found";
      "✅ FOUND: Package com.dojo.measurebowl exists!";
      "Edit ID: e1";
      NL +++ "🎉 SUCCESS! Use package name: com.dojo.measurebowl";
      "Update the Fastfile with this package name." ].
Proof.
  rewrite (test_package_main_announces_a_find (Mock.table Mock.only_dojo)
             Mock.plain tt Mock.credentials eq_refl).
  vm_compute; reflexivity.
Defined.

(* ================================================================== *)
(** * Remote errors *)
(* ================================================================== *)

Module FindOutput.

(** The line find_package.py prints for a request that raised (lines 54 to
    60), given the name of the method. *)
Definition error_line (method_name : string) (e : exn) : string :=
  match e with
  | HttpError 404 _ => "  ❌ " +++ method_name +++ ": Package not found"
  | _ => "  ⚠️  " +++ method_name +++ ": " +++ str_exn e
  end.

(** The lines the method loop prints for one exchange: the line of the
    error for a request that raised, the two lines of lines 50 and 51 for a
    request that returned. *)
Definition method_lines (F : Fmt) (cr : call * response) : list string :=
  match snd cr with
  | inl e => [error_line (FindTrace.method_name (fst cr)) e]
  | inr result =>
      [ "  ✅ " +++ FindTrace.method_name (fst cr) +++ " succeeded!";
        "  Result: " +++ substring 0 200 (json_dumps F result) +++ "..." ]
  end.

(** The lines of one exchange within the package loop: the first method of
    a package, [edits().list()], comes after the line of line 45. *)
Definition exchange_lines (F : Fmt) (cr : call * response) : list string :=
  (if is_listing (fst cr)
   then [NL +++ "Testing package: " +++ package_of (fst cr)]
   else [])
  ++ method_lines F cr.

End FindOutput.

Section RemoteErrors.
Context {St : Type} (H : Host St) (F : Fmt).
Import FindPackage FindTrace.

Lemma failure_line_is_error_line name e :
  failure_line name e = FindOutput.error_line name e.
Proof.
  destruct e as [st t|k|t|t]; try reflexivity.
  unfold failure_line, FindOutput.error_line.
  destruct (Z.eqb_spec st 404) as [->|Hne]; [reflexivity|].
  destruct st as [|q|q]; try reflexivity.
  do 9 (destruct q as [q|q|]; try reflexivity). congruence.
Qed.

Lemma probe_lines p ms T O hit :
  probe F p ms T O hit ->
  Forall (fun m => forall q, method_name (snd m q) = fst m) ms ->
  O = flat_map (FindOutput.method_lines F) T.
Proof.
  induction 1 as [|name f ms v|name f ms e T O hit Hp IH]; intros Hms.
  - reflexivity.
  - inversion Hms as [|m ms' Hm Hms']; subst.
    specialize (Hm p). cbn [snd fst] in Hm.
    cbn [flat_map FindOutput.method_lines snd fst app]. now rewrite Hm.
  - inversion Hms as [|m ms' Hm Hms']; subst.
    specialize (Hm p). cbn [snd fst] in Hm.
    cbn [flat_map FindOutput.method_lines snd fst app].
    now rewrite Hm, failure_line_is_error_line, <- IH.
Qed.

Lemma probe_not_listing p ms T O hit :
  probe F p ms T O hit ->
  Forall (fun m => forall q, is_listing (snd m q) = false) ms ->
  Forall (fun cr => is_listing (fst cr) = false) T.
Proof.
  induction 1 as [|name f ms v|name f ms e T O hit Hp IH]; intros Hms.
  - constructor.
  - inversion Hms as [|m ms' Hm Hms']; subst.
    constructor; [exact (Hm p)|constructor].
  - inversion Hms as [|m ms' Hm Hms']; subst.
    constructor; [exact (Hm p)|now apply IH].
Qed.

Lemma exchange_lines_not_listing T :
  Forall (fun cr => is_listing (fst cr) = false) T ->
  flat_map (FindOutput.exchange_lines F) T =
    flat_map (FindOutput.method_lines F) T.
Proof.
  induction 1 as [|cr T Hcr HT IH]; [reflexivity|].
  cbn [flat_map]. unfold FindOutput.exchange_lines at 1.
  now rewrite Hcr, IH.
Qed.

(** The lines of one package: the line of line 45, then the lines of its
    exchanges. *)
Lemma probe_methods_lines p T O hit :
  probe F p methods T O hit ->
  (NL +++ "Testing package: " +++ p) :: O =
    flat_map (FindOutput.exchange_lines F) T.
Proof.
  intros Hp. unfold methods in Hp.
  inversion Hp as [|name f ms v|name f ms e T' O' hit' Hp']; subst.
  - reflexivity.
  - cbn [flat_map].
    rewrite (exchange_lines_not_listing T').
    + rewrite (probe_lines _ _ _ _ _ Hp') by repeat constructor.
      unfold FindOutput.exchange_lines.
      cbn [fst snd is_listing package_of FindOutput.method_lines
             method_name app].
      now rewrite failure_line_is_error_line.
    + eapply probe_not_listing; [eassumption|repeat constructor].
Qed.

Lemma sweep_lines ps found T O found' :
  sweep F ps found T O found' ->
  O = flat_map (FindOutput.exchange_lines F) T.
Proof.
  induction 1 as [found|p ps found T O hit T' O' found' Hp Hs IH].
  - reflexivity.
  - rewrite flat_map_app, <- (probe_methods_lines _ _ _ _ Hp), <- IH.
    reflexivity.
Qed.

(** C7.  With the key file loaded, whatever the service answers or raises:
    [list_available_apps], [test_example_package] and
    [publish_existing_release] return a value.  For [list_available_apps]
    standard output is, after the two opening lines, the lines of the
    exchanges of the run one after the other (for each request that raised,
    the one line of its [except] clause, at its place) and then the verdict;
    for the two other functions every request that raised has the line of
    its [except] clause on standard output. *)
Theorem remote_errors_are_caught_and_printed s c :
  from_service_account_file H measurebowl_credentials = inr c ->
  (exists r w',
      list_available_apps H F (boot s) = (inr r, w') /\
      stdout w' =
        [ "Service account: " +++ service_account_email c;
          "Testing different approaches to find apps..." ]
        ++ flat_map (FindOutput.exchange_lines F) (trace w')
        ++ [verdict F (succeeded (trace w'))]) /\
  (exists b w',
      TestExamplePackage.test_example_package H F (boot s) = (inr b, w') /\
      reported (fun _ e => TestExampleTrace.error_line e)
        (trace w') (stdout w')) /\
  (exists b w',
      PublishRelease.publish_existing_release H F (boot s) = (inr b, w') /\
      reported (fun c e => PublishTrace.error_line (package_of c) e)
        (trace w') (stdout w')).
Proof.
  intros Hload. split; [|split].
  - destruct (list_available_apps_spec H F s)
      as [(e & Hfail & _)|(c' & found & w' & O & Hload' & Hrun & Hs & Ho)];
      [congruence|].
    rewrite Hload in Hload'. injection Hload' as <-.
    exists (hd_error found), w'. split; [assumption|].
    rewrite Ho, (sweep_lines _ _ _ _ _ Hs).
    now rewrite (sweep_succeeded F _ _ _ _ _ Hs).
  - eapply test_example_package_spec; eassumption.
  - destruct (publish_existing_release_spec H F s)
      as [(e & Hfail & _)|(r & w' & Hrun & _ & Hrep)]; [congruence|].
    eexists _, w'. split; eassumption.
Qed.

End RemoteErrors.

Lemma remote_errors_are_caught_and_printed_witness :
  (exists r w',
      FindPackage.list_available_apps Mock.playback Mock.plain
        (boot [Mock.forbidden; Mock.server_error]) = (inr r, w') /\
      stdout w' =
        [ "Service account: "
            +++ service_account_email Mock.credentials;
          "Testing different approaches to find apps..." ]
        ++ flat_map (FindOutput.exchange_lines Mock.plain) (trace w')
        ++ [FindTrace.verdict Mock.plain (succeeded (trace w'))]) /\
  (exists b w',
      TestExamplePackage.test_example_package Mock.playback Mock.plain
        (boot [Mock.forbidden; Mock.server_error]) = (inr b, w') /\
      reported (fun _ e => TestExampleTrace.error_line e)
        (trace w') (stdout w')) /\
  (exists b w',
      PublishRelease.publish_existing_release Mock.playback Mock.plain
        (boot [Mock.forbidden; Mock.server_error]) = (inr b, w') /\
      reported (fun c e => PublishTrace.error_line (package_of c) e)
        (trace w') (stdout w')).
Proof.
  exact (remote_errors_are_caught_and_printed Mock.playback Mock.plain
           [Mock.forbidden; Mock.server_error] Mock.credentials eq_refl).
Defined.
